(** * MiewID / wbia_tbd: a shallow embedding of the scoring plugin,
      the embedding cache, the model's forward path, the training set-up
      and GeM pooling, with the properties the specification states. *)

From Stdlib Require Import QArith Lqa Reals Lra.
From Stdlib Require Floats Uint63.
From stdpp Require Import gmap strings list fin_maps pretty.

(** ** Python exceptions and fallible results *)

Inductive exn : Type :=
| IndexError
| KeyError
| ZeroDivisionError
| AssertionError
| ValueError
| RuntimeError
| TypeError
| AttributeError.

Inductive result (A : Type) : Type :=
| Ok (a : A)
| Raise (e : exn).
Arguments Ok {A} a.
Arguments Raise {A} e.

Definition rbind {A B} (r : result A) (k : A → result B) : result B :=
  match r with
  | Ok a => k a
  | Raise e => Raise e
  end.

(** ** Numbers as the plugin sees them

    Scores are either plain Python numbers or [numpy.float64] scalars.
    Rounding is not modelled: finite values are exact rationals.  What is
    modelled is the difference the two kinds show on a zero divisor: a
    Python number raises [ZeroDivisionError], a [numpy.float64] follows
    IEEE-754 under numpy's default error state (a warning, and the
    quotient [inf], [-inf] or [nan]). *)

Inductive float64 : Type :=
| Finite (q : Q)
| PosInf
| NegInf
| NaN.

Inductive num : Type :=
| PyNum (q : Q)
| NpFloat (x : float64).

Definition finite_value (n : num) : option Q :=
  match n with
  | PyNum q => Some q
  | NpFloat (Finite q) => Some q
  | NpFloat _ => None
  end.

(** [n] is the finite number [q] (up to equality of rationals). *)
Definition num_is (n : num) (q : Q) : Prop :=
  match finite_value n with
  | Some x => (x == q)%Q
  | None => False
  end.

(** Both are finite and [a <= b]. *)
Definition num_le (a b : num) : Prop :=
  match finite_value a, finite_value b with
  | Some x, Some y => (x <= y)%Q
  | _, _ => False
  end.

Definition is_numpy (n : num) : bool :=
  match n with
  | NpFloat _ => true
  | PyNum _ => false
  end.

(** [numpy.float64.__truediv__] with an [int] divisor. *)
Definition float64_div_int (x : float64) (k : nat) : float64 :=
  match x with
  | Finite q =>
      match k with
      | O => match (q ?= 0)%Q with
             | Gt => PosInf
             | Lt => NegInf
             | Eq => NaN
             end
      | S _ => Finite (q / inject_Z (Z.of_nat k))
      end
  | PosInf => PosInf
  | NegInf => NegInf
  | NaN => NaN
  end.

(** Python's [score / count] at line 620 of [_plugin.py]. *)
Definition truediv (s : num) (k : nat) : result num :=
  match s with
  | PyNum q =>
      match k with
      | O => Raise ZeroDivisionError
      | S _ => Ok (PyNum (q / inject_Z (Z.of_nat k)))
      end
  | NpFloat x => Ok (NpFloat (float64_div_int x k))
  end.

(** ** Distance to score *)

(** [distance_to_score] of [_plugin.py], lines 599-602 (the module-level
    function, "for cosine distance"). *)
Definition distance_to_score (distance : Q) : num :=
  let score := ((2 - distance) / 2)%Q in
  let score := NpFloat (Finite score) in
  score.

(** The function of the same name nested in [wbia_plugin_tbd], lines
    277-279; it shadows the module-level one inside that function. *)
Definition wbia_plugin_tbd_distance_to_score (distance : Q) : num :=
  let score := (1 - distance)%Q in
  NpFloat (Finite score).

(** ** A small monad interface, shared by fallible and stateful code *)

Class PyMonad (m : Type → Type) : Type := {
  ret : ∀ {A}, A → m A;
  bind : ∀ {A B}, m A → (A → m B) → m B
}.

Declare Scope py_scope.
Delimit Scope py_scope with py.
Notation "x <- c ;; k" := (bind c (λ x, k))
  (at level 100, c at next level, right associativity) : py_scope.
Notation "c ;;; k" := (bind c (λ _, k))
  (at level 100, right associativity) : py_scope.
Local Open Scope py_scope.

#[export] Instance result_monad : PyMonad result :=
  {| ret := @Ok; bind := @rbind |}.

(** ** The process state *)

(** An embedding vector (a numpy row). *)
Definition embedding : Type := list Q.

(** The embedding computations [tbd_embedding] can start. *)
Inductive event : Type :=
| DepcGet (aids : list Z)
| ComputeEmbedding (aids : list Z).

(** [GLOBAL_EMBEDDING_CACHE] is the module-level dict of line 49; the
    list of [computations] records, oldest first, every batch handed to
    an embedding computation. *)
Record world : Type := World {
  GLOBAL_EMBEDDING_CACHE : gmap Z embedding;
  computations : list event
}.

(** Stateful code that may raise; an exception leaves the state as it
    was when it was raised. *)
Definition M (A : Type) : Type := world → result A * world.

Definition M_ret {A} (a : A) : M A := λ w, (Ok a, w).
Definition M_bind {A B} (c : M A) (k : A → M B) : M B :=
  λ w, match c w with
       | (Ok a, w') => k a w'
       | (Raise e, w') => (Raise e, w')
       end.
#[export] Instance M_monad : PyMonad M :=
  {| ret := @M_ret; bind := @M_bind |}.

Definition lift {A} (r : result A) : M A := λ w, (r, w).
Definition get_cache : M (gmap Z embedding) :=
  λ w, (Ok (GLOBAL_EMBEDDING_CACHE w), w).
Definition cache_setitem (aid : Z) (e : embedding) : M unit :=
  λ w, (Ok tt, World (<[aid := e]> (GLOBAL_EMBEDDING_CACHE w)) (computations w)).
Definition record_event (ev : event) : M unit :=
  λ w, (Ok tt, World (GLOBAL_EMBEDDING_CACHE w) (computations w ++ [ev])).

(** [for x in l: body x], threading an accumulator. *)
Fixpoint for_fold {m} `{PyMonad m} {A B} (body : B → A → m B) (l : list A) (acc : B) : m B :=
  match l with
  | [] => ret acc
  | x :: l' => acc' <- body acc x ;; for_fold body l' acc'
  end.

(** [[body x for x in l]]. *)
Fixpoint for_list {m} `{PyMonad m} {A B} (body : A → m B) (l : list A) : m (list B) :=
  match l with
  | [] => ret []
  | x :: l' => y <- body x ;; ys <- for_list body l' ;; ret (y :: ys)
  end.

(** [d[k]] on a dict. *)
Definition dict_getitem `{Countable K} {V} (d : gmap K V) (k : K) : result V :=
  match d !! k with
  | Some v => Ok v
  | None => Raise KeyError
  end.

(** [dict(pairs)]: later pairs overwrite earlier ones. *)
Definition dict_of_pairs `{Countable K} {V} (pairs : list (K * V)) : gmap K V :=
  foldl (λ d kv, <[kv.1 := kv.2]> d) ∅ pairs.

(** [{name: body(name, v) for name, v in d.items()}] with a body that may
    raise. *)
Definition dict_comprehension `{Countable K} {V W}
    (body : K → V → result W) (d : gmap K V) : result (gmap K W) :=
  map_fold (λ k v acc, m <- acc ;; w <- body k v ;; ret (<[k := w]> m)) (Ok ∅) d.

(** What a comprehension returns, and what makes it raise. *)
Definition comprehension_outcome `{Countable K} {V W}
    (body : K → V → result W) (d : gmap K V) (r : result (gmap K W)) : Prop :=
  match r with
  | Ok m =>
      ∀ k, match d !! k with
           | Some v => ∃ w, body k v = Ok w ∧ m !! k = Some w
           | None => m !! k = None
           end
  | Raise e => ∃ k v, d !! k = Some v ∧ body k v = Raise e
  end.

(** [l.count(x)]. *)
Definition list_count `{EqDecision A} (x : A) (l : list A) : nat :=
  length (filter (λ y, y = x) l).

(** [list(set(l))]: the distinct elements. Python leaves the order of a
    set's iteration open; the order of [elements] stands for it, and no
    statement below depends on it. *)
Definition list_of_set (l : list Z) : list Z :=
  elements (list_to_set l : gset Z).

(** ** The host controller and the collaborators outside [src/] *)

(** What [_load_config] leaves in the configuration object, as far as
    the embedding computation reads it. *)
Record LoadedConfig : Type := {
  use_gpu : bool;
  test_batch_size : nat
}.

(** A loaded model in evaluation mode: a batch of annotations (their
    images) to the rows it outputs. *)
Definition Model : Type := list Z → result (list embedding).

(** A string object the host returns as the name of an annotation: the
    constant [wbia.constants.UNKNOWN] itself, or another string object,
    whose text may well be the constant's. The operator [is] tells the
    two apart; equality and dict keys look at the text only. *)
Inductive name_text : Type :=
| UNKNOWN_object
| Str (text : string).

(** The WBIA controller [ibs], with the external loaders the plugin
    reaches through it. [UNKNOWN] is the text of
    [wbia.constants.UNKNOWN]; [annot_name_text] is the object
    [ibs.get_annot_name_texts] returns for one annotation. *)
Record IBS : Type := {
  UNKNOWN : string;
  annot_name_text : Z → name_text;
  get_annot_semantic_uuids : Z → string;
  get_annot_species_texts : Z → string;
  depc_annot_get : option string → list Z → result (list embedding);
  _load_config : string → result LoadedConfig;
  _load_model : LoadedConfig → string → result Model
}.

(** The text of a string object. *)
Definition str (ibs : IBS) (lab : name_text) : string :=
  match lab with
  | UNKNOWN_object => UNKNOWN ibs
  | Str text => text
  end.

(** [lab is not UNKNOWN]. *)
Definition is_not_UNKNOWN (lab : name_text) : bool :=
  match lab with
  | UNKNOWN_object => false
  | Str _ => true
  end.

(** [ibs.get_annot_name_texts], as a string value. *)
Definition get_annot_name_texts (ibs : IBS) (aid : Z) : string :=
  str ibs (annot_name_text ibs aid).

(** One row of [pred_light]'s answer. *)
Record entry : Type := Entry {
  label : string;
  distance : Q
}.

(** [wbia_tbd.metrics] is imported by [_plugin.py] and is not among the
    sources; its two functions are parameters of the development. *)
Record Metrics : Type := {
  pred_light : list embedding → list embedding → list string → result (list entry);
  compute_distance_matrix : list embedding → list embedding → result (list (list Q))
}.

(** The depc configuration of the [Tbd] table ([TbdConfig]). *)
Record TbdConfig : Type := {
  config_path : option string;
  use_knn : bool
}.

Definition CONFIGS : gmap string string :=
  dict_of_pairs
    [("whale_beluga", "https://cthulhu.dyn.wildme.io/public/models/tbd.beluga.yaml");
     ("delphinapterus_leucas", "https://cthulhu.dyn.wildme.io/public/models/tbd.beluga.yaml")]%string.

Definition MODELS : gmap string string :=
  dict_of_pairs
    [("whale_beluga", "https://cthulhu.dyn.wildme.io/public/models/tbd.beluga.bin");
     ("delphinapterus_leucas", "https://cthulhu.dyn.wildme.io/public/models/tbd.beluga.bin")]%string.

(** ** Computing embeddings *)

(** [aid_list[0]]. *)
Definition first_item {A} (l : list A) : result A :=
  match l with
  | [] => Raise IndexError
  | x :: _ => Ok x
  end.

(** The batches a [DataLoader] with [shuffle=False, drop_last=False]
    yields. *)
Fixpoint batches {A} (fuel n : nat) (l : list A) : list (list A) :=
  match fuel with
  | O => []
  | S fuel' =>
      match l with
      | [] => []
      | _ => take n l :: batches fuel' n (drop n l)
      end
  end.

Definition DataLoader {A} (dataset : list A) (batch_size : nat) : result (list (list A)) :=
  match batch_size with
  | O => Raise ValueError
  | S _ => Ok (batches (length dataset) batch_size dataset)
  end.

(** [np.concatenate] refuses an empty list of arrays. *)
Definition np_concatenate {A} (arrays : list (list A)) : result (list A) :=
  match arrays with
  | [] => Raise ValueError
  | _ => Ok (concat arrays)
  end.

(** [tbd_compute_embedding], lines 144-172. *)
Definition tbd_compute_embedding (ibs : IBS) (aid_list : list Z) (config : option string)
    : M (list embedding) :=
  record_event (ComputeEmbedding aid_list) ;;;
  lift (
    first <- first_item aid_list ;;
    let species := get_annot_species_texts ibs first in
    config <- match config with
              | None => dict_getitem CONFIGS species
              | Some c => Ok c
              end ;;
    config <- _load_config ibs config ;;
    model_url <- dict_getitem MODELS species ;;
    model <- _load_model ibs config model_url ;;
    test_loader <- DataLoader aid_list (test_batch_size config) ;;
    embeddings <- for_list model test_loader ;;
    np_concatenate embeddings).

(** [ut.take(d, keys)]: [[d[k] for k in keys]]. *)
Definition ut_take (d : gmap Z embedding) (keys : list Z) : result (list embedding) :=
  for_list (dict_getitem d) keys.

(** The two ways [tbd_embedding] computes the embeddings it misses, lines
    105-111: through the host's dependency cache, or directly. Either is
    one call on the whole list. *)
Definition compute_dirty_embeddings (ibs : IBS) (dirty_aids : list Z)
    (config : option string) (use_depc : bool) : M (list embedding) :=
  if use_depc then
    record_event (DepcGet dirty_aids) ;;;
    lift (depc_annot_get ibs config dirty_aids)
  else
    tbd_compute_embedding ibs dirty_aids config.

(** [tbd_embedding], lines 96-118. *)
Definition tbd_embedding (ibs : IBS) (aid_list : list Z) (config : option string)
    (use_depc : bool) : M (list embedding) :=
  cache <- get_cache ;;
  let dirty_aids := filter (λ aid, cache !! aid = None) aid_list in
  (if bool_decide (0 < length dirty_aids) then
     dirty_embeddings <- compute_dirty_embeddings ibs dirty_aids config use_depc ;;
     for_fold (λ _ '(dirty_aid, dirty_embedding), cache_setitem dirty_aid dirty_embedding)
       (zip dirty_aids dirty_embeddings) tt
   else ret tt) ;;;
  cache <- get_cache ;;
  lift (ut_take cache aid_list).

(** ** Predictions *)

(** [tbd_predict_light], lines 482-488. *)
Definition tbd_predict_light (ibs : IBS) (metrics : Metrics) (qaid : Z) (daid_list : list Z)
    (config : option string) : M (list entry) :=
  db_embs <- tbd_embedding ibs daid_list config true ;;
  let db_labels := map (get_annot_name_texts ibs) daid_list in
  query_emb <- tbd_embedding ibs [qaid] config true ;;
  lift (pred_light metrics query_emb db_embs db_labels).

(** [assert cond]. *)
Definition assert (cond : bool) : result unit :=
  if cond then Ok tt else Raise AssertionError.

(** [tbd_predict_light_distance], lines 492-501. *)
Definition tbd_predict_light_distance (ibs : IBS) (metrics : Metrics) (qaid : Z)
    (daid_list : list Z) (config : option string) : M (list Q) :=
  lift (assert (bool_decide (length daid_list = length (list_of_set daid_list)))) ;;;
  db_embs <- tbd_embedding ibs daid_list config true ;;
  query_emb <- tbd_embedding ibs [qaid] config true ;;
  distmat <- lift (compute_distance_matrix metrics query_emb db_embs) ;;
  lift (first_item distmat).

(** ** From name distances to annotation scores *)

(** [_db_labels_for_tbd], lines 580-589: an annotation whose name is the
    constant [UNKNOWN] is labelled by its own semantic uuid, prefixed by
    [UNKNOWN]. The test [lab is not UNKNOWN] is one of identity: a name
    that is another string object keeps its text, also when the text is
    that of the constant. *)
Definition _db_labels_for_tbd (ibs : IBS) (daid_list : list Z) : list string :=
  let db_labels := map (annot_name_text ibs) daid_list in
  let db_auuids := map (get_annot_semantic_uuids ibs) daid_list in
  let db_auuids := map (λ auuid, UNKNOWN ibs +:+ auuid) db_auuids in
  map (λ '(lab, auuid), if is_not_UNKNOWN lab then str ibs lab else auuid)
      (zip db_labels db_auuids).

(** [distance_dicts_to_name_score_dicts], lines 604-609. *)
Definition distance_dicts_to_name_score_dicts (distance_dicts : list entry)
    (conversion_func : Q → num) : gmap string num :=
  let score_dicts := distance_dicts in
  foldl (λ name_score_dicts entry,
           <[label entry := conversion_func (distance entry)]> name_score_dicts)
        ∅ score_dicts.

(** [defaultdict(float, d)[name]]. *)
Definition defaultdict_float_getitem (d : gmap string num) (name : string) : num :=
  match d !! name with
  | Some v => v
  | None => PyNum 0
  end.

(** [aid_scores_from_name_scores], lines 612-630. *)
Definition aid_scores_from_name_scores (ibs : IBS) (name_score_dict : gmap string num)
    (daid_list : list Z) : result (list num) :=
  let daid_name_list := _db_labels_for_tbd ibs daid_list in
  let name_count_dict : gmap string nat :=
    map_imap (λ name _, Some (list_count name daid_name_list)) name_score_dict in
  name_annotwise_score_dict <-
    dict_comprehension
      (λ name _,
         score <- dict_getitem name_score_dict name ;;
         count <- dict_getitem name_count_dict name ;;
         truediv score count)
      name_score_dict ;;
  let daid_scores := map (defaultdict_float_getitem name_annotwise_score_dict) daid_name_list in
  Ok daid_scores.

(** ** The pairwise scoring operation *)

(** The first loop of [wbia_plugin_tbd], lines 287-310: one dict of
    database scores per distinct query annotation. *)
Definition score_queries (ibs : IBS) (metrics : Metrics) (config : TbdConfig)
    (qaids daids : list Z) : M (gmap Z (gmap Z num)) :=
  for_fold
    (λ (qaid_score_dict : gmap Z (gmap Z num)) qaid,
       if use_knn config then
         tbd_name_dists <- tbd_predict_light ibs metrics qaid daids (config_path config) ;;
         let tbd_name_scores :=
           distance_dicts_to_name_score_dicts tbd_name_dists distance_to_score in
         aid_score_list <- lift (aid_scores_from_name_scores ibs tbd_name_scores daids) ;;
         let aid_score_dict := dict_of_pairs (zip daids aid_score_list) in
         ret (<[qaid := aid_score_dict]> qaid_score_dict)
       else
         tbd_annot_distances <-
           tbd_predict_light_distance ibs metrics qaid daids (config_path config) ;;
         ret (<[qaid :=
                  foldl (λ d '(daid, tbd_annot_distance),
                           <[daid := wbia_plugin_tbd_distance_to_score tbd_annot_distance]> d)
                        ∅ (zip daids tbd_annot_distances)]> qaid_score_dict))
    qaids ∅.

(** The second loop, lines 312-318: the score yielded for each pair. *)
Definition yield_scores (qaid_score_dict : gmap Z (gmap Z num))
    (qaid_list daid_list : list Z) : list (option num) :=
  map (λ '(qaid, daid),
         if decide (qaid = daid) then
           let daid_score := PyNum 0 in
           Some daid_score
         else
           let aid_score_dict := default ∅ (qaid_score_dict !! qaid) in
           let daid_score := aid_score_dict !! daid in
           daid_score)
      (zip qaid_list daid_list).

(** [wbia_plugin_tbd], lines 276-318. The generator yields nothing before
    the first loop is over, so its run is the list of everything it
    yields, or the exception the first loop raised. A yielded [None] is
    Python's [None]. *)
Definition wbia_plugin_tbd (ibs : IBS) (metrics : Metrics)
    (qaid_list daid_list : list Z) (config : TbdConfig) : M (list (option num)) :=
  let qaids := list_of_set qaid_list in
  let daids := list_of_set daid_list in
  qaid_score_dict <- score_queries ibs metrics config qaids daids ;;
  ret (yield_scores qaid_score_dict qaid_list daid_list).

(** ** The embedding model ([models/model.py])

    Tensors are kept symbolic: what matters to the specification is
    which layers produced a value, how many images are in the batch and
    how wide the value is, not its floats. A batch holds at least one
    image. *)

Inductive tensor : Type :=
| Images (batch_size : positive)
| BackboneOut (channels : nat) (x : tensor)
| GeMPooled (x : tensor)
| BatchNorm1dOut (num_features : nat) (x : tensor)
| DropoutOut (x : tensor)
| LinearOut (in_features out_features : nat) (x : tensor)
| ArcFaceOut (in_features out_features : nat) (x : tensor).

(** The size of the feature axis. *)
Fixpoint width (t : tensor) : nat :=
  match t with
  | Images _ => 3
  | BackboneOut channels _ => channels
  | GeMPooled x => width x
  | BatchNorm1dOut _ x => width x
  | DropoutOut x => width x
  | LinearOut _ out_features _ => out_features
  | ArcFaceOut _ out_features _ => out_features
  end.

(** [x.shape[0]]: the number of images in the batch. *)
Fixpoint batch (t : tensor) : positive :=
  match t with
  | Images batch_size => batch_size
  | BackboneOut _ x => batch x
  | GeMPooled x => batch x
  | BatchNorm1dOut _ x => batch x
  | DropoutOut x => batch x
  | LinearOut _ _ x => batch x
  | ArcFaceOut _ _ x => batch x
  end.

(** Modelled from the spec: the constructor of [heads.ElasticArcFace],
    which [model.py] imports at line 6 and which is not among the
    sources. Of the margin head the model keeps the two sizes
    [MiewIdNet.__init__] hands to it (the specification, 4.2, gives it a
    weight matrix of n_classes rows of D entries) and takes its
    construction not to raise. The other value of [self.final] is a
    plain [nn.Linear]. *)
Inductive head : Type :=
| ElasticArcFace (in_features out_features : nat)
| Linear (in_features out_features : nat).

Inductive submodule : Type :=
| call_backbone | call_pooling | call_bn | call_dropout | call_fc | call_final.

(** The attributes [MiewIdNet.__init__] sets, lines 70-100. [dropout] and
    [fc] exist only on a model built with [use_fc]. *)
Record MiewIdNet : Type := {
  backbone : nat;
  bn : nat;
  use_fc : bool;
  dropout : option Q;
  fc : option (nat * nat);
  loss_module : string;
  final : head;
  training : bool
}.

(** [ModelParams] of [helpers/config.py]; the constructor receives every
    field by keyword (the model is built from the params as a dict). *)
Record ModelParams : Type := {
  model_name : string;
  mp_use_fc : bool;
  fc_dim : nat;
  mp_dropout : Q;
  mp_loss_module : string;
  s : Q;
  margin : Q;
  ls_eps : Q;
  theta_zero : Q;
  pretrained : bool;
  n_classes : nat
}.

(** [nn.Dropout(p=dropout)]: the constructor refuses a probability
    outside [0, 1]. *)
Definition nn_Dropout (p : Q) : result Q :=
  if (Qle_bool 0 p && Qle_bool p 1)%bool then Ok p else Raise ValueError.

(** [MiewIdNet.__init__]. [timm_create_model name pretrained] stands for
    [timm.create_model(model_name, pretrained=pretrained)] and gives the
    backbone's [classifier.in_features], or raises for a model it cannot
    build. A fresh [nn.Module] is in training mode. *)
Definition MiewIdNet_init (timm_create_model : string → bool → result nat)
    (p : ModelParams) : result MiewIdNet :=
  final_in_features <- timm_create_model (model_name p) (pretrained p) ;;
  let backbone_features := final_in_features in
  let n := n_classes p in
  let bn0 := final_in_features in
  layers <-
    (if mp_use_fc p then
       dropout <- nn_Dropout (mp_dropout p) ;;
       Ok (fc_dim p, Some dropout, Some (final_in_features, n), fc_dim p)
     else
       Ok (bn0, None, None, final_in_features)) ;;
  let '(bn1, dropout1, fc1, final_in_features) := layers in
  Ok {| backbone := backbone_features;
        bn := bn1;
        use_fc := mp_use_fc p;
        dropout := dropout1;
        fc := fc1;
        loss_module := mp_loss_module p;
        final := if decide (mp_loss_module p = "arcface"%string)
                 then ElasticArcFace final_in_features n
                 else Linear final_in_features n;
        training := true |}.

(** [model.eval()] and [model.train()]. *)
Definition set_training (self : MiewIdNet) (mode : bool) : MiewIdNet :=
  {| backbone := backbone self; bn := bn self; use_fc := use_fc self;
     dropout := dropout self; fc := fc self; loss_module := loss_module self;
     final := final self; training := mode |}.

(** Module calls, recorded in order; a failing call is recorded too. *)
Definition T (A : Type) : Type := list submodule → result A * list submodule.

Definition T_bind {A B} (c : T A) (k : A → T B) : T B :=
  λ calls, match c calls with
           | (Ok a, calls') => k a calls'
           | (Raise e, calls') => (Raise e, calls')
           end.
#[export] Instance T_monad : PyMonad T :=
  {| ret := λ A (a : A) calls, (Ok a, calls); bind := @T_bind |}.

Definition call {A} (m : submodule) (r : result A) : T A :=
  λ calls, (r, calls ++ [m]).
Definition fail {A} (e : exn) : T A := λ calls, (Raise e, calls).

(** [nn.BatchNorm1d(num_features)(x)] on a batch of rows: in training
    mode it first refuses a batch with one value per channel (a single
    image) with [ValueError]; then the feature axis must be
    [num_features] wide. *)
Definition apply_bn (training : bool) (num_features : nat) (x : tensor) : result tensor :=
  if (training && bool_decide (batch x = 1%positive))%bool then Raise ValueError
  else if decide (width x = num_features) then Ok (BatchNorm1dOut num_features x)
  else Raise RuntimeError.

(** [nn.Linear(in_features, out_features)(x)]. *)
Definition apply_linear (io : nat * nat) (x : tensor) : result tensor :=
  if decide (width x = io.1) then Ok (LinearOut io.1 io.2 x)
  else Raise RuntimeError.

(** An attribute that was never set. *)
Definition getattr {A} (o : option A) : result A :=
  match o with
  | Some a => Ok a
  | None => Raise AttributeError
  end.

(** [MiewIdNet.extract_feat], lines 120-131. *)
Definition extract_feat (self : MiewIdNet) (x : tensor) : T tensor :=
  x <- call call_backbone (Ok (BackboneOut (backbone self) x)) ;;
  x <- call call_pooling (Ok (GeMPooled x)) ;;
  x <- call call_bn (apply_bn (training self) (bn self) x) ;;
  (if use_fc self then
     x1 <- call call_dropout (_ <- getattr (dropout self) ;; Ok (DropoutOut x)) ;;
     x1 <- call call_bn (apply_bn (training self) (bn self) x1) ;;
     x1 <- call call_fc (io <- getattr (fc self) ;; apply_linear io x1) ;;
     ret tt
   else ret tt) ;;;
  ret x.

(** Modelled from the spec: the forward pass of [heads.ElasticArcFace],
    which [model.py] imports at line 6 and which is not among the
    sources. The specification (4.2) gives the margin head an embedding
    batch of dimension D, a batch of integer labels and a weight matrix
    of n_classes rows of D entries, and logits of n_classes columns as
    its output; the labels are an argument it cannot do without. *)
Definition ElasticArcFace_forward (in_features out_features : nat) (feature : tensor)
    (label : option (list Z)) : result tensor :=
  match label with
  | Some _ =>
      if decide (width feature = in_features)
      then Ok (ArcFaceOut in_features out_features feature)
      else Raise RuntimeError
  | None => Raise TypeError
  end.

(** [self.final(feature, label)] and [self.final(feature)]: the margin
    head, or a plain [nn.Linear], which takes no labels. *)
Definition apply_final (h : head) (feature : tensor) (label : option (list Z)) : result tensor :=
  match h, label with
  | ElasticArcFace i o, _ => ElasticArcFace_forward i o feature label
  | Linear i o, None => apply_linear (i, o) feature
  | Linear _ _, Some _ => Raise TypeError
  end.

(** [MiewIdNet.forward], lines 108-118. *)
Definition forward (self : MiewIdNet) (x : tensor) (label : option (list Z)) : T tensor :=
  feature <- extract_feat self x ;;
  if negb (training self) then
    ret feature
  else
    (match label with
     | Some _ => ret tt
     | None => fail AssertionError
     end) ;;;
    (if bool_decide (loss_module self ∈ ["arcface"; "cosface"; "adacos"]%string) then
       call call_final (apply_final (final self) feature label)
     else
       call call_final (apply_final (final self) feature None)).

(** ** Training set-up ([train.py]) *)

(** The part of [Config] the set-up of the model reads. *)
Record Config : Type := {
  exp_name : string;
  project_name : string;
  checkpoint_dir : string;
  model_params : ModelParams
}.

Definition set_n_classes (config : Config) (n : nat) : Config :=
  let p := model_params config in
  {| exp_name := exp_name config;
     project_name := project_name config;
     checkpoint_dir := checkpoint_dir config;
     model_params :=
       {| model_name := model_name p; mp_use_fc := mp_use_fc p; fc_dim := fc_dim p;
          mp_dropout := mp_dropout p; mp_loss_module := mp_loss_module p; s := s p;
          margin := margin p; ls_eps := ls_eps p; theta_zero := theta_zero p;
          pretrained := pretrained p; n_classes := n |} |}.

(** The line printed at line 108. *)
Definition n_classes_warning (configured observed : nat) : string :=
  "WARNING: Overriding n_classes in config (" +:+ pretty configured +:+
  ") which is different from actual n_train_classes (" +:+ pretty observed +:+
  "). This parameters has to be readjusted in config for proper checkpoint loading after training.".

(** The line the constructor prints, line 71 of [model.py]. *)
Definition building_banner (p : ModelParams) : string :=
  "Building Model Backbone for " +:+ model_name p +:+ " model".

(** What the set-up leaves behind: the lines printed, the configuration
    object (mutated in place) and the model. *)
Record setup : Type := {
  stdout : list string;
  config_after : Config;
  model : MiewIdNet
}.

(** [run], lines 107-110, with [n_train_classes] the number of distinct
    names of the training frame (line 70). *)
Definition run_model_setup (timm_create_model : string → bool → result nat)
    (config : Config) (n_train_classes : nat) : result setup :=
  let '(out, config) :=
    if decide (n_classes (model_params config) ≠ n_train_classes) then
      ([n_classes_warning (n_classes (model_params config)) n_train_classes],
       set_n_classes config n_train_classes)
    else ([], config) in
  model <- MiewIdNet_init timm_create_model (model_params config) ;;
  Ok {| stdout := out ++ [building_banner (model_params config)];
        config_after := config;
        model := model |}.

(** ** GeM pooling ([models/model.py], lines 30-40)

    Over the real numbers: the pooling is stated for one channel of one
    image, a plane of [H] rows of [W] entries; the layer treats every
    channel of every image alike. *)

Definition plane : Type := list (list R).

Definition Rsum (l : list R) : R := foldr Rplus 0%R l.

(** [x.clamp(min=eps)]. *)
Definition clamp_min (eps : R) (x : plane) : plane :=
  map (map (λ v, Rmax v eps)) x.

(** [x.pow(p)], on entries that are positive. *)
Definition tensor_pow (p : R) (x : plane) : plane :=
  map (map (λ v, Rpower v p)) x.

(** [x.size(-2)] and [x.size(-1)]. *)
Definition size_rows (x : plane) : nat := length x.
Definition size_cols (x : plane) : nat :=
  match x with
  | [] => O
  | row :: _ => length row
  end.

(** The entries under the pooling window at output position [(i, j)]. *)
Definition window (x : plane) (kh kw i j : nat) : list R :=
  concat (map (λ row, take kw (drop (j * kw) row)) (take kh (drop (i * kh) x))).

(** [F.avg_pool2d(x, (kh, kw))]: stride equal to the kernel, no padding. *)
Definition avg_pool2d (x : plane) (kh kw : nat) : result plane :=
  match kh, kw with
  | S _, S _ =>
      Ok (map (λ i, map (λ j, (Rsum (window x kh kw i j) / INR (kh * kw))%R)
                        (seq 0 (size_cols x / kw)))
              (seq 0 (size_rows x / kh)))
  | _, _ => Raise RuntimeError
  end.

Record GeM : Type := {
  p : R;
  eps : R
}.

(** [GeM.gem], line 40. *)
Definition gem (x : plane) (p eps : R) : result plane :=
  pooled <- avg_pool2d (tensor_pow p (clamp_min eps x)) (size_rows x) (size_cols x) ;;
  Ok (tensor_pow (1 / p)%R pooled).

(** [GeM.forward], line 37. *)
Definition GeM_forward (self : GeM) (x : plane) : result plane :=
  gem x (p self) (eps self).

(** [GeM()]: the defaults of line 31. *)
Definition GeM_default : GeM := {| p := 3%R; eps := (1 / 1000000)%R |}.

(** A plane of [h] rows, all of [w] entries. *)
Definition rectangular (h w : nat) (x : plane) : Prop :=
  length x = h ∧ Forall (λ row, length row = w) x.

(** ** Accuracy helpers ([_plugin.py], lines 504-547) *)

(** [l.remove(x)] on a copy: the first occurrence goes, and a list
    without [x] raises [ValueError]. *)
Fixpoint list_remove (x : Z) (l : list Z) : result (list Z) :=
  match l with
  | [] => Raise ValueError
  | y :: l' =>
      if decide (y = x) then Ok l'
      else l'' <- list_remove x l' ;; Ok (y :: l'')
  end.

(** [l.index(x)]. *)
Fixpoint list_index `{EqDecision A} (x : A) (l : list A) : result nat :=
  match l with
  | [] => Raise ValueError
  | y :: l' =>
      if decide (y = x) then Ok O
      else i <- list_index x l' ;; Ok (S i)
  end.

(** [_tbd_accuracy], lines 504-515: the rank of the query's own name
    among the answers, or -1. *)
Definition _tbd_accuracy (ibs : IBS) (metrics : Metrics) (qaid : Z) (daid_list : list Z)
    : M Z :=
  daids <- lift (list_remove qaid daid_list) ;;
  ans <- tbd_predict_light ibs metrics qaid daids None ;;
  let ans_names := map label ans in
  let ground_truth := get_annot_name_texts ibs qaid in
  match list_index ground_truth ans_names with
  | Ok i => ret (Z.of_nat i + 1)%Z
  | Raise ValueError => ret (-1)%Z
  | Raise e => lift (Raise e)
  end.

(** [tbd_mass_accuracy], lines 518-522. *)
Definition tbd_mass_accuracy (ibs : IBS) (metrics : Metrics) (aid_list : list Z)
    (daid_list : option (list Z)) : M (list Z) :=
  let daid_list := match daid_list with
                   | None => aid_list
                   | Some l => l
                   end in
  for_list (λ aid, _tbd_accuracy ibs metrics aid daid_list) aid_list.

(** The arithmetic of Python floats [accuracy_at_k] relies on: the
    quotient of two ints, the divisor not being zero, and the builtin
    [sum] of a list of floats. Both round, and how [sum] rounds depends
    on the interpreter, so the function is stated over any such
    arithmetic. *)
Record FloatArith : Type := {
  float : Type;
  int_quotient : nat → nat → float;
  float_sum : list float → float
}.

(** The sum of a list of rationals, added from the left. *)
Definition Qsum (l : list Q) : Q := foldl Qplus 0%Q l.

(** Arithmetic without rounding: exact quotients and exact sums. *)
Definition exact_arith : FloatArith :=
  {| float := Q;
     int_quotient := λ a b, (inject_Z (Z.of_nat a) / inject_Z (Z.of_nat b))%Q;
     float_sum := Qsum |}.

(** An [int] as a double, exact below 2^53, as the length of a list
    and the counts of its items are. *)
Definition float_of_nat (n : nat) : PrimFloat.float :=
  PrimFloat.of_uint63 (Uint63.of_Z (Z.of_nat n)).

(** IEEE-754 doubles, with [sum] adding from the left, one rounding per
    addition, as CPython computes it before version 3.12. *)
Definition binary64_arith : FloatArith :=
  {| float := PrimFloat.float;
     int_quotient := λ a b, PrimFloat.div (float_of_nat a) (float_of_nat b);
     float_sum := foldl PrimFloat.add (float_of_nat 0) |}.

(** [count / len(ranks)] on two Python ints. *)
Definition int_truediv (F : FloatArith) (a : nat) (b : nat) : result (float F) :=
  match b with
  | O => Raise ZeroDivisionError
  | S _ => Ok (int_quotient F a b)
  end.

(** [accuracy_at_k], lines 525-531. *)
Definition accuracy_at_k (F : FloatArith) (ranks : list Z) (max_rank : Z)
    : result (list (float F)) :=
  let counts := map (λ i, list_count i ranks) (seqZ 1 max_rank) in
  percent_counts <- for_list (λ count, int_truediv F count (length ranks)) counts ;;
  let cumulative_percent :=
    map (λ i, float_sum F (take i percent_counts)) (seq 1 (length percent_counts)) in
  Ok cumulative_percent.

(** [_count_dict], lines 541-547: a [defaultdict(int)] counted up. *)
Definition _count_dict (item_list : list Z) : gmap Z nat :=
  foldl (λ count_dict item, <[item := S (default O (count_dict !! item))]> count_dict)
        ∅ item_list.

(** [subset_with_resights], lines 534-538. [get_annot_name_rowids] is
    the host's map from an annotation to the row id of its name. *)
Definition subset_with_resights (get_annot_name_rowids : Z → Z) (aid_list : list Z) (n : Z)
    : result (list Z) :=
  let names := map get_annot_name_rowids aid_list in
  let name_counts := _count_dict names in
  kept <- for_list (λ '(aid, name),
                      count <- dict_getitem name_counts name ;;
                      Ok (aid, bool_decide (n ≤ Z.of_nat count)%Z))
                   (zip aid_list names) ;;
  Ok ((filter (λ p, p.2 = true) kept).*1).

(** ** Vocabulary of the statements *)

(** No key with a plain Python score labels zero annotations. *)
Definition zero_division_free (d : gmap string num) (names : list string) : Prop :=
  ∀ name q, d !! name = Some (PyNum q) → 0 < list_count name names.

(** The scores of the annotations labelled [name]. *)
Definition identity_scores (name : string) (names : list string) (scores : list num)
    : list num :=
  (filter (λ p, p.1 = name) (zip names scores)).*2.

(** The sum of a list of finite scores. *)
Fixpoint sum_scores (l : list num) : option Q :=
  match l with
  | [] => Some 0%Q
  | n :: l' =>
      match finite_value n, sum_scores l' with
      | Some x, Some y => Some (x + y)%Q
      | _, _ => None
      end
  end.

(** The ids of [aid_list] the cache misses, in order (lines 98-101). *)
Definition dirty_aids_of (cache : gmap Z embedding) (aid_list : list Z) : list Z :=
  filter (λ aid, cache !! aid = None) aid_list.

(** The event one computation of [dirty_aids] leaves in the log. *)
Definition computation_event (use_depc : bool) (dirty_aids : list Z) : event :=
  if use_depc then DepcGet dirty_aids else ComputeEmbedding dirty_aids.

(** A computation that leaves every cached embedding where it is. *)
Definition keeps_cache {A} (c : M A) : Prop :=
  ∀ w aid e,
    GLOBAL_EMBEDDING_CACHE w !! aid = Some e →
    GLOBAL_EMBEDDING_CACHE (c w).2 !! aid = Some e.

(** The ranks that count at cut-off [k]: found, and at most [k]. *)
Definition hits_within (k : Z) (ranks : list Z) : nat :=
  length (filter (λ r, 1 ≤ r ≤ k)%Z ranks).

(** ** A small host to run the definitions on *)

Definition demo_embed (aid : Z) : embedding := [inject_Z aid; 1%Q].

Definition demo_model : Model := λ images, Ok (map demo_embed images).

(** Annotations 1 and 2 are named "a", 3 is named "b", the others have
    no name: the host answers with the constant. *)
Definition demo_ibs : IBS :=
  {| UNKNOWN := "____";
     annot_name_text := λ aid,
       if decide (aid = 1 ∨ aid = 2)%Z then Str "a"
       else if decide (aid = 3)%Z then Str "b" else UNKNOWN_object;
     get_annot_semantic_uuids := λ aid, "uuid-" +:+ pretty aid;
     get_annot_species_texts := λ _, "whale_beluga";
     depc_annot_get := λ _ aids, Ok (map demo_embed aids);
     _load_config := λ _, Ok {| use_gpu := false; test_batch_size := 2 |};
     _load_model := λ _ _, Ok demo_model |}.

(** A host that answers a missing name with a fresh string, equal to
    the constant. *)
Definition copying_ibs : IBS :=
  {| UNKNOWN := UNKNOWN demo_ibs;
     annot_name_text := λ aid,
       match annot_name_text demo_ibs aid with
       | UNKNOWN_object => Str (UNKNOWN demo_ibs)
       | lab => lab
       end;
     get_annot_semantic_uuids := get_annot_semantic_uuids demo_ibs;
     get_annot_species_texts := get_annot_species_texts demo_ibs;
     depc_annot_get := depc_annot_get demo_ibs;
     _load_config := _load_config demo_ibs;
     _load_model := _load_model demo_ibs |}.

(** Every label of the database at distance 1/2. *)
Definition demo_metrics : Metrics :=
  {| pred_light := λ _ _ db_labels, Ok (map (λ l, Entry l (1 # 2)) db_labels);
     compute_distance_matrix := λ _ db_embs, Ok [map (λ _, (1 # 2)%Q) db_embs] |}.

Definition empty_world : world := World ∅ [].

Definition demo_name_scores : gmap string num :=
  <["a" := PyNum (3 # 4)]> (<["b" := NpFloat (Finite (1 # 2))]>
    (<["ghost" := NpFloat (Finite 1)]> ∅)).

(** [timm] knowing one backbone, with its classifier's input width. *)
Definition demo_timm (name : string) (_ : bool) : result nat :=
  if decide (name = "efficientnet_b0") then Ok 1280 else Raise RuntimeError.

Definition demo_params (fc : bool) (dim : nat) : ModelParams :=
  {| model_name := "efficientnet_b0"; mp_use_fc := fc; fc_dim := dim;
     mp_dropout := 0%Q; mp_loss_module := "arcface"; s := 30%Q; margin := (1 # 2)%Q;
     ls_eps := 0%Q; theta_zero := (785 # 1000)%Q; pretrained := true; n_classes := 10 |}.

(** The model [MiewIdNet_init] builds from [demo_params true dim]. *)
Definition demo_net (dim : nat) : MiewIdNet :=
  {| backbone := 1280; bn := dim; use_fc := true; dropout := Some 0%Q;
     fc := Some (1280, 10); loss_module := "arcface";
     final := ElasticArcFace dim 10; training := true |}.

Definition demo_config : Config :=
  {| exp_name := "demo"; project_name := "miewid"; checkpoint_dir := "runs";
     model_params := demo_params false 512 |}.

(** The number of classes a head separates. *)
Definition head_classes (h : head) : nat :=
  match h with
  | ElasticArcFace _ out_features => out_features
  | Linear _ out_features => out_features
  end.

(** * Properties *)

(** ** Distance to score *)

Lemma distance_to_score_value (d : Q) :
  finite_value (distance_to_score d) = Some ((2 - d) / 2)%Q.
Proof. reflexivity. Qed.

Lemma wbia_plugin_tbd_distance_to_score_value (d : Q) :
  finite_value (wbia_plugin_tbd_distance_to_score d) = Some (1 - d)%Q.
Proof. reflexivity. Qed.

Ltac q_arith :=
  unfold num_is, num_le, distance_to_score,
    wbia_plugin_tbd_distance_to_score;
  cbn [finite_value]; first [Lqa.lra | reflexivity | field].

(** C1, as stated, fails: the conversion applied when [use_knn] is false
    sends distance 2 to -1, not to (2 - 2) / 2 = 0. *)
Lemma C1_counterexample :
  num_is (wbia_plugin_tbd_distance_to_score 2) (-1) ∧
  ¬ num_is (wbia_plugin_tbd_distance_to_score 2) ((2 - 2) / 2).
Proof.
  split; [q_arith |].
  unfold num_is; cbn. intros H. vm_compute in H. discriminate H.
Qed.

(** C1 (amended): the module-level [distance_to_score], which the k-NN
    name scoring applies, maps every distance [d] to [(2 - d) / 2], is
    non-increasing, and gives 1 at 0 and 0 at 2; the conversion nested in
    [wbia_plugin_tbd], applied when [use_knn] is false, maps [d] to
    [1 - d]: it is non-increasing too and gives 1 at 0, but -1 at 2. *)
Theorem C1_distance_to_score (d1 d2 : Q) :
  (d1 <= d2)%Q →
  (num_is (distance_to_score d1) ((2 - d1) / 2) ∧
   num_le (distance_to_score d2) (distance_to_score d1) ∧
   num_is (distance_to_score 0) 1 ∧
   num_is (distance_to_score 2) 0) ∧
  (num_is (wbia_plugin_tbd_distance_to_score d1) (1 - d1) ∧
   num_le (wbia_plugin_tbd_distance_to_score d2) (wbia_plugin_tbd_distance_to_score d1) ∧
   num_is (wbia_plugin_tbd_distance_to_score 0) 1 ∧
   num_is (wbia_plugin_tbd_distance_to_score 2) (-1)).
Proof.
  intros Hle. repeat split; try q_arith.
  unfold num_le; cbn. apply Qmult_le_compat_r; [Lqa.lra | discriminate].
Qed.

Lemma C1_witness :
  (0 <= 2)%Q ∧
  num_le (distance_to_score 2) (distance_to_score 0) ∧
  num_le (wbia_plugin_tbd_distance_to_score 2) (wbia_plugin_tbd_distance_to_score 0).
Proof.
  split; [Lqa.lra |].
  pose proof (C1_distance_to_score 0 2 ltac:(Lqa.lra)) as [(_ & H1 & _) (_ & H2 & _)].
  exact (conj H1 H2).
Defined.

(** ** Dict comprehensions and counting *)

Section dict_comprehension.
Context `{Countable K} {V W : Type}.
Implicit Types (body : K → V → result W) (d : gmap K V).

Lemma dict_comprehension_outcome body d :
  comprehension_outcome body d (dict_comprehension body d).
Proof.
  unfold dict_comprehension.
  apply (map_fold_weak_ind (λ r d, comprehension_outcome body d r)).
  - simpl. intros k. by rewrite !lookup_empty.
  - intros i x m r Hi IH. destruct r as [acc | e]; simpl in *.
    + destruct (body i x) as [w | e] eqn:Hb; simpl.
      * intros k. destruct (decide (i = k)) as [-> | Hne].
        -- rewrite !lookup_insert_eq. eauto.
        -- rewrite !lookup_insert_ne by done. apply IH.
      * exists i, x. by rewrite lookup_insert_eq.
    + destruct IH as (k & v & Hk & Hb). exists k, v. split; [| done].
      rewrite lookup_insert_ne; [done |]. intros ->. congruence.
Qed.

Lemma dict_comprehension_Ok body d :
  (∀ k v, d !! k = Some v → ∃ w, body k v = Ok w) →
  ∃ m, dict_comprehension body d = Ok m ∧ comprehension_outcome body d (Ok m).
Proof.
  intros Hall. pose proof (dict_comprehension_outcome body d) as Hout.
  destruct (dict_comprehension body d) as [m | e]; [eauto |].
  destruct Hout as (k & v & Hk & Hb). destruct (Hall k v Hk) as [w Hw]. congruence.
Qed.
End dict_comprehension.

Lemma list_count_cons `{EqDecision A} (x y : A) (l : list A) :
  list_count x (y :: l) = (if decide (y = x) then S (list_count x l) else list_count x l).
Proof.
  unfold list_count. rewrite filter_cons. by destruct (decide (y = x)).
Qed.

Lemma list_count_pos `{EqDecision A} (x : A) (l : list A) :
  x ∈ l → 0 < list_count x l.
Proof.
  induction l as [| y l IH]; intros Hin.
  - by apply elem_of_nil in Hin.
  - rewrite list_count_cons. destruct (decide (y = x)); [lia |].
    apply elem_of_cons in Hin as [-> | Hin]; [done | by apply IH].
Qed.

Lemma _db_labels_for_tbd_length ibs daid_list :
  length (_db_labels_for_tbd ibs daid_list) = length daid_list.
Proof.
  unfold _db_labels_for_tbd.
  rewrite length_map, length_zip, !length_map. lia.
Qed.

(** ** Annotation scores from name scores *)

Section aid_scores.
Variable ibs : IBS.
Variable d : gmap string num.
Variable daid_list : list Z.
Let names := _db_labels_for_tbd ibs daid_list.

(** The body of the second comprehension, at a key of the dict. *)
Let body : string → num → result num :=
  λ name _,
    score <- dict_getitem d name ;;
    count <- dict_getitem
               (map_imap (λ name _, Some (list_count name names)) d : gmap string nat) name ;;
    truediv score count.

Lemma body_at_key name s v :
  d !! name = Some s → body name v = truediv s (list_count name names).
Proof.
  intros Hs. unfold body, dict_getitem. rewrite Hs; simpl.
  by rewrite map_lookup_imap, Hs.
Qed.

Lemma aid_scores_unfold :
  aid_scores_from_name_scores ibs d daid_list =
  (m <- dict_comprehension body d ;; Ok (map (defaultdict_float_getitem m) names)).
Proof. reflexivity. Qed.

Lemma truediv_Ok s k :
  (∀ q, s = PyNum q → 0 < k) → ∃ r, truediv s k = Ok r.
Proof.
  intros Hk. destruct s as [q | x]; simpl; [| eauto].
  destruct k; [specialize (Hk q eq_refl); lia | eauto].
Qed.

Lemma aid_scores_total :
  zero_division_free d names →
  ∃ m, aid_scores_from_name_scores ibs d daid_list
       = Ok (map (defaultdict_float_getitem m) names) ∧
       ∀ name, match d !! name with
               | Some s => ∃ w, truediv s (list_count name names) = Ok w ∧
                                m !! name = Some w
               | None => m !! name = None
               end.
Proof.
  intros Hfree. rewrite aid_scores_unfold.
  destruct (dict_comprehension_Ok body d) as (m & Hm & Hout).
  - intros name s Hs. rewrite (body_at_key _ s) by done.
    apply truediv_Ok. intros q ->. by apply (Hfree name q).
  - exists m. rewrite Hm. split; [done |].
    intros name. specialize (Hout name). destruct (d !! name) as [s |] eqn:Hs; [| done].
    destruct Hout as (w & Hw & Hm'). rewrite (body_at_key _ s) in Hw by done. eauto.
Qed.

Lemma aid_scores_outcome :
  match aid_scores_from_name_scores ibs d daid_list with
  | Ok _ => zero_division_free d names
  | Raise e =>
      e = ZeroDivisionError ∧
      ∃ name q, d !! name = Some (PyNum q) ∧ list_count name names = 0
  end.
Proof.
  rewrite aid_scores_unfold.
  pose proof (dict_comprehension_outcome body d) as Hout.
  destruct (dict_comprehension body d) as [m | e]; simpl in *.
  - intros name q Hq. specialize (Hout name). rewrite Hq in Hout.
    destruct Hout as (w & Hw & _). rewrite (body_at_key _ (PyNum q)) in Hw by done.
    simpl in Hw. destruct (list_count name names); [done | lia].
  - destruct Hout as (name & v & Hv & Hb). rewrite (body_at_key _ v) in Hb by done.
    destruct v as [q | x]; simpl in Hb; [| done].
    destruct (list_count name names) eqn:Hc; [| done].
    injection Hb as <-. eauto.
Qed.
End aid_scores.

Lemma identity_scores_map (f : string → num) (name : string) (names : list string) :
  identity_scores name names (map f names) = replicate (list_count name names) (f name).
Proof.
  unfold identity_scores. induction names as [| y l IH]; [done |].
  change (zip (y :: l) (map f (y :: l))) with ((y, f y) :: zip l (map f l)).
  rewrite filter_cons, list_count_cons. change ((y, f y).1) with y.
  destruct (decide (y = name)) as [-> | Hne]; [| done].
  rewrite fmap_cons, IH. done.
Qed.

Lemma sum_scores_replicate (k : nat) (r : num) (x : Q) :
  finite_value r = Some x →
  ∃ total, sum_scores (replicate k r) = Some total ∧
           (total == inject_Z (Z.of_nat k) * x)%Q.
Proof.
  intros Hr. induction k as [| k (t & Ht & Heq)].
  - exists 0%Q. split; [done |]. change (inject_Z (Z.of_nat 0)) with 0%Q. ring.
  - exists (x + t)%Q. split.
    + simpl. by rewrite Hr, Ht.
    + rewrite Nat2Z.inj_succ. unfold Z.succ. rewrite inject_Z_plus, Heq.
      change (inject_Z 1) with 1%Q. ring.
Qed.

Lemma truediv_finite (s r : num) (k : nat) (q : Q) :
  0 < k → truediv s k = Ok r → finite_value s = Some q →
  finite_value r = Some (q / inject_Z (Z.of_nat k))%Q.
Proof.
  intros Hk Hdiv Hq. destruct k as [| k]; [lia |].
  destruct s as [q' | [q' | | |]]; simpl in *; try done.
  - injection Hq as ->. by injection Hdiv as <-.
  - injection Hq as ->. by injection Hdiv as <-.
Qed.

Lemma numpy_scores_zero_division_free (d : gmap string num) (names : list string) :
  (∀ name s, d !! name = Some s → is_numpy s = true) → zero_division_free d names.
Proof. intros Hnp name q Hq. by apply Hnp in Hq. Qed.

(** Every name score the k-NN branch hands on is a converted distance of
    one of the rows of the prediction, hence a [numpy.float64] when the
    conversion is [distance_to_score]. *)
Lemma distance_dicts_to_name_score_dicts_lookup (distance_dicts : list entry)
    (conversion_func : Q → num) (name : string) (score : num) :
  distance_dicts_to_name_score_dicts distance_dicts conversion_func !! name = Some score →
  ∃ e, e ∈ distance_dicts ∧ label e = name ∧ score = conversion_func (distance e).
Proof.
  unfold distance_dicts_to_name_score_dicts.
  induction distance_dicts as [| e l IH] using rev_ind;
    [simpl; by intros ?%lookup_empty_Some |].
  rewrite foldl_app. simpl. destruct (decide (label e = name)) as [Heq | Hne].
  - rewrite Heq, lookup_insert_eq. intros [= <-]. exists e.
    split; [apply elem_of_app; right; by left | done].
  - rewrite lookup_insert_ne by done. intros (e' & Hin & Hrest)%IH.
    exists e'. split; [apply elem_of_app; by left | done].
Qed.

Lemma pipeline_name_scores_free (distance_dicts : list entry) (names : list string) :
  zero_division_free
    (distance_dicts_to_name_score_dicts distance_dicts distance_to_score) names.
Proof.
  apply numpy_scores_zero_division_free. intros name s Hs.
  by apply distance_dicts_to_name_score_dicts_lookup in Hs as (e & _ & _ & ->).
Qed.

(** C3, as stated, fails: annotation 3 carries the identity "b", which
    is absent from the name-score mapping, and instead of receiving the
    score 0 it receives nothing: the operation raises
    [ZeroDivisionError], the key "ghost", scored with a plain Python
    float, labelling no annotation of the database. *)
Lemma C3_counterexample :
  let d : gmap string num := {["ghost" := PyNum 1]} in
  _db_labels_for_tbd demo_ibs [3]%Z = ["b"]%string ∧
  d !! "b"%string = None ∧
  aid_scores_from_name_scores demo_ibs d [3]%Z = Raise ZeroDivisionError.
Proof. repeat split; vm_compute; reflexivity. Qed.

(** C3 (amended): when no plain Python score is keyed by a name without
    database annotations (numpy scores, which the pipeline passes, never
    need this), [aid_scores_from_name_scores] returns one score per
    database annotation, in order: the annotation's name score divided
    by the number [k >= 1] of database annotations with its name, and
    Python's 0.0 when the name has no score. For a finite name score [q]
    each annotation of the name gets [q / k], and these sum to [q], the
    quotient and the sum being those of exact rational arithmetic (the
    rounding of the floats is not modelled). When some plain Python
    score is keyed by a name without database annotations, the operation
    raises [ZeroDivisionError], and no annotation receives a score. *)
Theorem C3_aid_scores_from_name_scores (ibs : IBS) (d : gmap string num) (daid_list : list Z) :
  let names := _db_labels_for_tbd ibs daid_list in
  (zero_division_free d names →
   ∃ scores,
     aid_scores_from_name_scores ibs d daid_list = Ok scores ∧
     length scores = length daid_list ∧
     (∀ i name, names !! i = Some name →
        let k := list_count name names in
        0 < k ∧
        match d !! name with
        | Some s =>
            ∃ r, scores !! i = Some r ∧ truediv s k = Ok r ∧
                 ∀ q, finite_value s = Some q →
                      finite_value r = Some (q / inject_Z (Z.of_nat k))%Q
        | None => scores !! i = Some (PyNum 0)
        end) ∧
     (∀ name s q, d !! name = Some s → finite_value s = Some q →
        0 < list_count name names →
        ∃ total, sum_scores (identity_scores name names scores) = Some total ∧
                 (total == q)%Q)) ∧
  ((∀ name s, d !! name = Some s → is_numpy s = true) → zero_division_free d names) ∧
  (∀ name q, d !! name = Some (PyNum q) → list_count name names = 0 →
     aid_scores_from_name_scores ibs d daid_list = Raise ZeroDivisionError).
Proof.
  intros names. split; [| split].
  2: { apply numpy_scores_zero_division_free. }
  2: { intros name q Hq Hc. pose proof (aid_scores_outcome ibs d daid_list) as Hout.
       destruct (aid_scores_from_name_scores ibs d daid_list) as [scores | e].
       - specialize (Hout name q Hq). fold names in Hout. lia.
       - by destruct Hout as [-> _]. }
  intros Hfree.
  destruct (aid_scores_total ibs d daid_list Hfree) as (m & Hrun & Hout).
  fold names in Hrun, Hout.
  exists (map (defaultdict_float_getitem m) names). split; [done |].
  split; [by rewrite length_map; apply _db_labels_for_tbd_length |].
  split.
  - intros i name Hi k.
    assert (0 < k) as Hk.
    { apply list_count_pos. apply list_elem_of_lookup. eauto. }
    split; [done |].
    rewrite list_lookup_fmap, Hi. simpl. unfold defaultdict_float_getitem.
    specialize (Hout name). destruct (d !! name) as [s |] eqn:Hs.
    + destruct Hout as (w & Hw & ->).
      exists w. repeat split; [done |].
      intros q Hq. by apply (truediv_finite s).
    + by rewrite Hout.
  - intros name s q Hs Hq Hk.
    rewrite identity_scores_map. unfold defaultdict_float_getitem.
    specialize (Hout name). rewrite Hs in Hout. destruct Hout as (w & Hw & ->).
    pose proof (truediv_finite s w _ q Hk Hw Hq) as Hfin.
    destruct (sum_scores_replicate (list_count name names) w _ Hfin) as (t & Ht & Heq).
    exists t. split; [done |]. rewrite Heq. field.
    change 0%Q with (inject_Z 0). rewrite inject_Z_injective. lia.
Qed.

Lemma demo_name_scores_free :
  zero_division_free demo_name_scores (_db_labels_for_tbd demo_ibs [1; 2; 3; 4]%Z).
Proof.
  intros name q Hq. unfold demo_name_scores in Hq.
  apply lookup_insert_Some in Hq as [[<- _] | [_ Hq]].
  - vm_compute. lia.
  - apply lookup_insert_Some in Hq as [[_ Hq] | [_ Hq]]; [done |].
    apply lookup_insert_Some in Hq as [[_ Hq] | [_ Hq]]; done.
Defined.

Lemma C3_witness :
  zero_division_free demo_name_scores (_db_labels_for_tbd demo_ibs [1; 2; 3; 4]%Z) ∧
  ∃ scores,
    aid_scores_from_name_scores demo_ibs demo_name_scores [1; 2; 3; 4]%Z = Ok scores ∧
    length scores = 4.
Proof.
  split; [exact demo_name_scores_free |].
  destruct (proj1 (C3_aid_scores_from_name_scores demo_ibs demo_name_scores [1; 2; 3; 4]%Z)
              demo_name_scores_free) as (scores & Hrun & Hlen & _).
  exists scores. split; [exact Hrun | exact Hlen].
Defined.

Example aid_scores_demo :
  aid_scores_from_name_scores demo_ibs demo_name_scores [1; 2; 3; 4]%Z
  = Ok [PyNum ((3 # 4) / 2); PyNum ((3 # 4) / 2); NpFloat (Finite ((1 # 2) / 1)); PyNum 0].
Proof. vm_compute. reflexivity. Qed.

(** C10, as stated, fails: "ghost" is a key that labels no database
    annotation, its score is a [numpy.float64] as [distance_to_score]
    returns them, and the operation returns the scores. *)
Lemma C10_counterexample :
  let d : gmap string num := {["ghost" := distance_to_score 1]} in
  is_Some (d !! "ghost") ∧
  list_count "ghost" (_db_labels_for_tbd demo_ibs [3]%Z) = 0 ∧
  aid_scores_from_name_scores demo_ibs d [3]%Z = Ok [PyNum 0].
Proof.
  split; [by eexists |]. split; vm_compute; reflexivity.
Qed.

(** C10 (amended): [aid_scores_from_name_scores] fails exactly when some
    key whose score is a plain Python number labels zero database
    annotations, and the failure is then a division by zero; when it
    returns, no such key exists. A zero-count key with a [numpy.float64]
    score does not make it fail. *)
Theorem C10_zero_count_keys (ibs : IBS) (d : gmap string num) (daid_list : list Z) :
  let names := _db_labels_for_tbd ibs daid_list in
  match aid_scores_from_name_scores ibs d daid_list with
  | Ok scores =>
      length scores = length daid_list ∧
      ∀ name s, d !! name = Some s → list_count name names = 0 → is_numpy s = true
  | Raise e =>
      e = ZeroDivisionError ∧
      ∃ name q, d !! name = Some (PyNum q) ∧ list_count name names = 0
  end.
Proof.
  intros names. pose proof (aid_scores_outcome ibs d daid_list) as Hout.
  destruct (aid_scores_from_name_scores ibs d daid_list) as [scores | e] eqn:Hrun; [| done].
  split.
  - destruct (aid_scores_total ibs d daid_list Hout) as (m & Hm & _).
    rewrite Hrun in Hm. injection Hm as ->.
    rewrite length_map. apply _db_labels_for_tbd_length.
  - intros name [q | x] Hs Hc; [| done].
    specialize (Hout name q Hs). fold names in Hout. lia.
Qed.

(** On the name scores the k-NN branch builds, the operation always
    returns. *)
Lemma pipeline_aid_scores_total (ibs : IBS) (distance_dicts : list entry) (daid_list : list Z) :
  ∃ scores,
    aid_scores_from_name_scores ibs
      (distance_dicts_to_name_score_dicts distance_dicts distance_to_score) daid_list
    = Ok scores.
Proof.
  destruct (aid_scores_total ibs _ daid_list
              (pipeline_name_scores_free distance_dicts _)) as (m & Hrun & _).
  eauto.
Qed.

Example aid_scores_python_ghost :
  aid_scores_from_name_scores demo_ibs {["ghost" := PyNum 1]} [3]%Z = Raise ZeroDivisionError.
Proof. vm_compute. reflexivity. Qed.

(** ** The pairwise scoring operation *)

Lemma yield_scores_length qaid_score_dict (qaid_list daid_list : list Z) :
  length (yield_scores qaid_score_dict qaid_list daid_list)
  = length qaid_list `min` length daid_list.
Proof. unfold yield_scores. by rewrite length_map, length_zip. Qed.

Lemma yield_scores_self qaid_score_dict (qaid_list daid_list : list Z) (i : nat) (aid : Z) :
  qaid_list !! i = Some aid → daid_list !! i = Some aid →
  yield_scores qaid_score_dict qaid_list daid_list !! i = Some (Some (PyNum 0)).
Proof.
  intros Hq Hd. unfold yield_scores.
  rewrite list_lookup_fmap, lookup_zip_with, Hq, Hd. simpl.
  by rewrite decide_True.
Qed.

Lemma wbia_plugin_tbd_Ok ibs metrics qaid_list daid_list config w ys :
  (wbia_plugin_tbd ibs metrics qaid_list daid_list config w).1 = Ok ys →
  ∃ qaid_score_dict, ys = yield_scores qaid_score_dict qaid_list daid_list.
Proof.
  unfold wbia_plugin_tbd. cbn [bind M_monad]. unfold M_bind.
  destruct (score_queries _ _ _ _ _ w) as [[qsd | e] w1]; simpl; [| done].
  intros [= <-]. eauto.
Qed.

(** C4: whatever the host, the metrics and the state, every pair the
    pairwise scoring operation emits for a query annotation paired with
    itself carries the score 0.0; it emits one score per pair. *)
Theorem C4_self_match_score_zero (ibs : IBS) (metrics : Metrics)
    (qaid_list daid_list : list Z) (config : TbdConfig) (w : world)
    (ys : list (option num)) :
  (wbia_plugin_tbd ibs metrics qaid_list daid_list config w).1 = Ok ys →
  length ys = length qaid_list `min` length daid_list ∧
  ∀ i aid, qaid_list !! i = Some aid → daid_list !! i = Some aid →
           ys !! i = Some (Some (PyNum 0)).
Proof.
  intros (qsd & ->)%wbia_plugin_tbd_Ok. split.
  - apply yield_scores_length.
  - intros i aid. apply yield_scores_self.
Qed.

Example wbia_plugin_tbd_demo_knn :
  (wbia_plugin_tbd demo_ibs demo_metrics [1; 1; 2; 3]%Z [1; 2; 2; 1]%Z
     {| config_path := None; use_knn := true |} empty_world).1
  = Ok [Some (PyNum 0); Some (NpFloat (Finite (((2 - (1 # 2)) / 2) / 2)));
        Some (PyNum 0); Some (NpFloat (Finite (((2 - (1 # 2)) / 2) / 2)))].
Proof. vm_compute. reflexivity. Qed.

Example wbia_plugin_tbd_demo_distance :
  (wbia_plugin_tbd demo_ibs demo_metrics [1; 1; 2; 3]%Z [1; 2; 2; 1]%Z
     {| config_path := None; use_knn := false |} empty_world).1
  = Ok [Some (PyNum 0); Some (NpFloat (Finite (1 - (1 # 2))));
        Some (PyNum 0); Some (NpFloat (Finite (1 - (1 # 2))))].
Proof. vm_compute. reflexivity. Qed.

Lemma C4_witness :
  ∃ ys,
    (wbia_plugin_tbd demo_ibs demo_metrics [1; 1; 2; 3]%Z [1; 2; 2; 1]%Z
       {| config_path := None; use_knn := true |} empty_world).1 = Ok ys ∧
    ys !! 0 = Some (Some (PyNum 0)) ∧ ys !! 2 = Some (Some (PyNum 0)).
Proof.
  eexists. split; [vm_compute; reflexivity |].
  split.
  - eapply (C4_self_match_score_zero demo_ibs demo_metrics [1; 1; 2; 3]%Z [1; 2; 2; 1]%Z
              {| config_path := None; use_knn := true |} empty_world);
      [vm_compute; reflexivity | reflexivity | reflexivity].
  - eapply (C4_self_match_score_zero demo_ibs demo_metrics [1; 1; 2; 3]%Z [1; 2; 2; 1]%Z
              {| config_path := None; use_knn := true |} empty_world);
      [vm_compute; reflexivity | reflexivity | reflexivity].
Defined.

(** ** The embedding cache *)

Lemma cache_fold_run (pairs : list (Z * embedding)) (w : world) :
  for_fold (λ _ '(dirty_aid, dirty_embedding), cache_setitem dirty_aid dirty_embedding)
    pairs tt w
  = (Ok tt, World (foldl (λ c kv, <[kv.1 := kv.2]> c) (GLOBAL_EMBEDDING_CACHE w) pairs)
              (computations w)).
Proof.
  revert w. induction pairs as [| [aid e] pairs IH]; intros w.
  - by destruct w.
  - cbn [for_fold bind M_monad]. unfold M_bind. cbn [cache_setitem].
    rewrite IH. reflexivity.
Qed.

(** After [d[k] = v for k, v in pairs]: the last pair of a key wins, the
    other keys are untouched. *)
Lemma foldl_insert_lookup (pairs : list (Z * embedding)) (c : gmap Z embedding) (k : Z) :
  ((k ∉ pairs.*1) ∧ foldl (λ c kv, <[kv.1 := kv.2]> c) c pairs !! k = c !! k) ∨
  (∃ j v, pairs !! j = Some (k, v) ∧
          foldl (λ c kv, <[kv.1 := kv.2]> c) c pairs !! k = Some v).
Proof.
  induction pairs as [| [k' v'] pairs IH] using rev_ind.
  - left. split; [apply not_elem_of_nil | done].
  - rewrite foldl_app. simpl. destruct (decide (k' = k)) as [-> | Hne].
    + right. exists (length pairs), v'. split.
      * by rewrite lookup_app_r, Nat.sub_diag.
      * by rewrite lookup_insert_eq.
    + rewrite lookup_insert_ne by done. destruct IH as [[Hnot Heq] | (j & v & Hj & Heq)].
      * left. split; [| done]. rewrite fmap_app, elem_of_app. simpl.
        intros [? | Hin%list_elem_of_singleton]; [done | congruence].
      * right. exists j, v. split; [| done]. by apply lookup_app_l_Some.
Qed.

Lemma ut_take_Ok (c : gmap Z embedding) (keys : list Z) :
  (∀ aid, aid ∈ keys → is_Some (c !! aid)) →
  ∃ out, ut_take c keys = Ok out ∧ length out = length keys ∧
         ∀ i aid, keys !! i = Some aid → out !! i = c !! aid.
Proof.
  unfold ut_take. induction keys as [| aid keys IH]; intros Hall.
  - exists []. repeat split. intros i aid Hi. by rewrite lookup_nil in Hi.
  - destruct (Hall aid) as [e He]; [left |].
    destruct IH as (out & Hout & Hlen & Hlook); [intros; apply Hall; by right |].
    exists (e :: out). cbn [for_list bind result_monad rbind ret].
    unfold dict_getitem at 1. rewrite He. cbn [rbind]. rewrite Hout.
    repeat split; [simpl; by rewrite Hlen |].
    intros [| i] aid'; simpl; [by intros [= <-] | apply Hlook].
Qed.

Lemma dirty_aids_of_nil (c : gmap Z embedding) (aid_list : list Z) :
  (∀ aid, aid ∈ aid_list → is_Some (c !! aid)) → dirty_aids_of c aid_list = [].
Proof.
  intros Hall. unfold dirty_aids_of. induction aid_list as [| aid l IH]; [done |].
  rewrite filter_cons. destruct (Hall aid) as [e He]; [left |].
  rewrite decide_False by (by rewrite He). apply IH. intros; apply Hall; by right.
Qed.

(** A call that finds every id in the cache reads the cache and does
    nothing else. *)
Lemma tbd_embedding_hit ibs aid_list config use_depc (w : world) :
  (∀ aid, aid ∈ aid_list → is_Some (GLOBAL_EMBEDDING_CACHE w !! aid)) →
  ∃ out, tbd_embedding ibs aid_list config use_depc w = (Ok out, w) ∧
         length out = length aid_list ∧
         ∀ i aid, aid_list !! i = Some aid → out !! i = GLOBAL_EMBEDDING_CACHE w !! aid.
Proof.
  intros Hall. destruct (ut_take_Ok _ _ Hall) as (out & Hout & Hlen & Hlook).
  exists out. split; [| done].
  unfold tbd_embedding. cbn [bind M_monad]. unfold M_bind, get_cache at 1.
  fold (dirty_aids_of (GLOBAL_EMBEDDING_CACHE w) aid_list).
  rewrite (dirty_aids_of_nil _ _ Hall). simpl. unfold lift. by rewrite Hout.
Qed.

Lemma compute_dirty_embeddings_run ibs dirty config use_depc (w : world) :
  (compute_dirty_embeddings ibs dirty config use_depc w).2
  = World (GLOBAL_EMBEDDING_CACHE w) (computations w ++ [computation_event use_depc dirty]).
Proof.
  unfold compute_dirty_embeddings, tbd_compute_embedding.
  destruct use_depc; cbn [bind M_monad]; unfold M_bind; simpl;
    unfold lift; by simpl.
Qed.

Lemma dirty_aids_of_spec (c : gmap Z embedding) (aid_list : list Z) (aid : Z) :
  aid ∈ dirty_aids_of c aid_list ↔ aid ∈ aid_list ∧ c !! aid = None.
Proof. unfold dirty_aids_of. by rewrite list_elem_of_filter, (comm (∧)). Qed.

(** One run of [tbd_embedding], given what the computation returns. *)
Lemma tbd_embedding_run ibs aid_list config use_depc (w : world) (embs : list embedding) :
  let cache := GLOBAL_EMBEDDING_CACHE w in
  let dirty := dirty_aids_of cache aid_list in
  let cache' := foldl (λ c kv, <[kv.1 := kv.2]> c) cache (zip dirty embs) in
  (dirty ≠ [] → (compute_dirty_embeddings ibs dirty config use_depc w).1 = Ok embs) →
  tbd_embedding ibs aid_list config use_depc w
  = (ut_take cache' aid_list,
     World cache' (computations w ++
                   if decide (dirty = []) then [] else [computation_event use_depc dirty])).
Proof.
  intros cache dirty cache' Hcompute.
  unfold tbd_embedding. cbn [bind M_monad]. unfold M_bind, get_cache at 1.
  fold cache. fold (dirty_aids_of cache aid_list). fold dirty.
  destruct (decide (dirty = [])) as [Hnil | Hne].
  - subst cache'. rewrite Hnil. simpl. rewrite app_nil_r. unfold lift. by destruct w.
  - rewrite bool_decide_true by (destruct dirty; [done | simpl; lia]).
    pose proof (compute_dirty_embeddings_run ibs dirty config use_depc w) as Hw.
    specialize (Hcompute Hne).
    destruct (compute_dirty_embeddings ibs dirty config use_depc w) as [r w1].
    simpl in Hw, Hcompute. subst r w1.
    rewrite cache_fold_run. reflexivity.
Qed.

Lemma zip_fst_lookup {A B} (l : list A) (k : list B) (j : nat) (a : A) (b : B) :
  zip l k !! j = Some (a, b) ↔ l !! j = Some a ∧ k !! j = Some b.
Proof.
  rewrite lookup_zip_with. split.
  - destruct (l !! j), (k !! j); simpl; naive_solver.
  - by intros [-> ->].
Qed.

(** C5: provided the computation of the missing ids, when there are any,
    returns one embedding per id, [tbd_embedding] returns one embedding
    per requested id, in order, read from the cache as it stands at the
    end; ids the cache already held keep their vector and are returned
    with it; the missing ids go to the computation in one call (none when
    nothing is missing) and are in the cache afterwards; a second call
    with the same ids, in any order, returns the same cached vectors and
    leaves the cache and the log of computations as they are. *)
Theorem C5_tbd_embedding (ibs : IBS) (aid_list : list Z) (config : option string)
    (use_depc : bool) (w : world) (embs : list embedding) :
  let cache := GLOBAL_EMBEDDING_CACHE w in
  let dirty := dirty_aids_of cache aid_list in
  (dirty ≠ [] →
     (compute_dirty_embeddings ibs dirty config use_depc w).1 = Ok embs ∧
     length embs = length dirty) →
  ∃ out w',
    let cache' := GLOBAL_EMBEDDING_CACHE w' in
    tbd_embedding ibs aid_list config use_depc w = (Ok out, w') ∧
    length out = length aid_list ∧
    (∀ i aid, aid_list !! i = Some aid →
              is_Some (out !! i) ∧ out !! i = cache' !! aid) ∧
    (∀ aid e, cache !! aid = Some e → cache' !! aid = Some e) ∧
    (∀ i aid e, aid_list !! i = Some aid → cache !! aid = Some e → out !! i = Some e) ∧
    computations w'
    = computations w ++
      (if decide (dirty = []) then [] else [computation_event use_depc dirty]) ∧
    (∀ aid, aid ∈ dirty →
            ∃ j e, dirty !! j = Some aid ∧ embs !! j = Some e ∧ cache' !! aid = Some e) ∧
    tbd_embedding ibs aid_list config use_depc w' = (Ok out, w') ∧
    (∀ aid_list2, (∀ aid, aid ∈ aid_list2 → aid ∈ aid_list) →
       ∃ out2, tbd_embedding ibs aid_list2 config use_depc w' = (Ok out2, w') ∧
               ∀ i aid, aid_list2 !! i = Some aid → out2 !! i = cache' !! aid).
Proof.
  intros cache dirty Hcompute.
  pose proof (tbd_embedding_run ibs aid_list config use_depc w embs) as Hrun.
  cbv zeta in Hrun. fold cache dirty in Hrun.
  set (cache' := foldl (λ c kv, <[kv.1 := kv.2]> c) cache (zip dirty embs)) in *.
  rewrite Hrun by (intros Hne; by apply Hcompute). clear Hrun.
  (* what the insertions did *)
  assert (Hkeep : ∀ aid e, cache !! aid = Some e → cache' !! aid = Some e).
  { intros aid e He.
    destruct (foldl_insert_lookup (zip dirty embs) cache aid)
      as [[_ Heq] | (j & v & Hj & _)]; [fold cache' in Heq; congruence |].
    apply zip_fst_lookup in Hj as [Hj _].
    apply list_elem_of_lookup_2, dirty_aids_of_spec in Hj as [_ Hnone].
    fold cache in Hnone. congruence. }
  assert (Hnew : ∀ aid, aid ∈ dirty →
            ∃ j e, dirty !! j = Some aid ∧ embs !! j = Some e ∧ cache' !! aid = Some e).
  { intros aid Hin.
    assert (dirty ≠ []) as Hne by (intros Heq; rewrite Heq in Hin; by apply elem_of_nil in Hin).
    destruct (Hcompute Hne) as [_ Hlen].
    destruct (foldl_insert_lookup (zip dirty embs) cache aid)
      as [[Hnot _] | (j & v & Hj & Heq)].
    - exfalso. apply Hnot. rewrite fst_zip by lia. done.
    - apply zip_fst_lookup in Hj as [Hj Hv]. exists j, v. by fold cache' in Heq. }
  assert (Hall : ∀ aid, aid ∈ aid_list → is_Some (cache' !! aid)).
  { intros aid Hin. destruct (cache !! aid) as [e |] eqn:He.
    - exists e. by apply Hkeep.
    - destruct (Hnew aid) as (j & e & _ & _ & Hc); [by apply dirty_aids_of_spec |]. eauto. }
  destruct (ut_take_Ok cache' aid_list Hall) as (out & Hout & Hlen & Hlook).
  rewrite Hout. eexists out, _. cbn [GLOBAL_EMBEDDING_CACHE computations].
  assert (Hsub : ∀ aid_list2, (∀ aid, aid ∈ aid_list2 → aid ∈ aid_list) →
       ∃ out2,
         tbd_embedding ibs aid_list2 config use_depc
           (World cache' (computations w ++
              if decide (dirty = []) then [] else [computation_event use_depc dirty]))
         = (Ok out2, World cache' (computations w ++
              if decide (dirty = []) then [] else [computation_event use_depc dirty])) ∧
         length out2 = length aid_list2 ∧
         ∀ i aid, aid_list2 !! i = Some aid → out2 !! i = cache' !! aid).
  { intros l2 Hl2. apply tbd_embedding_hit. simpl. intros aid Hin. by apply Hall, Hl2. }
  split; [reflexivity |]. split; [done |].
  split. { intros i aid Hi. rewrite (Hlook i aid Hi). split; [| done].
           apply Hall. by apply list_elem_of_lookup_2 in Hi. }
  split; [done |].
  split. { intros i aid e Hi He. rewrite (Hlook i aid Hi). by apply Hkeep. }
  split; [done |]. split; [done |].
  split.
  - destruct (Hsub aid_list) as (out2 & Hrun2 & Hlen2 & Hlook2); [done |].
    rewrite Hrun2. f_equal. f_equal. apply list_eq. intros i.
    destruct (aid_list !! i) as [aid |] eqn:Hi.
    + by rewrite (Hlook i aid Hi), (Hlook2 i aid Hi).
    + apply lookup_ge_None in Hi.
      rewrite !(proj2 (lookup_ge_None _ _)); [done | lia | lia].
  - intros l2 Hl2. destruct (Hsub l2 Hl2) as (out2 & Hrun2 & _ & Hlook2). eauto.
Qed.

Example tbd_embedding_demo :
  tbd_embedding demo_ibs [1; 2; 3; 2]%Z None false (World {[2%Z := [9%Q]]} [])
  = (Ok [demo_embed 1; [9%Q]; demo_embed 3; [9%Q]],
     World (<[3%Z := demo_embed 3]> (<[1%Z := demo_embed 1]> {[2%Z := [9%Q]]}))
           [ComputeEmbedding [1; 3]%Z]).
Proof. vm_compute. reflexivity. Qed.

Lemma C5_witness :
  let w := World {[2%Z := [9%Q]]} [] in
  (compute_dirty_embeddings demo_ibs [1; 3]%Z None false w).1
    = Ok [demo_embed 1; demo_embed 3] ∧
  ∃ out w',
    tbd_embedding demo_ibs [1; 2; 3; 2]%Z None false w = (Ok out, w') ∧
    length out = 4 ∧
    tbd_embedding demo_ibs [1; 2; 3; 2]%Z None false w' = (Ok out, w').
Proof.
  intros w. split; [vm_compute; reflexivity |].
  destruct (C5_tbd_embedding demo_ibs [1; 2; 3; 2]%Z None false w
              [demo_embed 1; demo_embed 3])
    as (out & w' & Hrun & Hlen & _ & _ & _ & _ & _ & Hagain & _).
  { intros _. split; vm_compute; reflexivity. }
  exists out, w'. split; [exact Hrun |]. split; [exact Hlen | exact Hagain].
Defined.

(** ** Empty inputs *)

Lemma tbd_embedding_log ibs aid_list config use_depc (w : world) :
  let dirty := dirty_aids_of (GLOBAL_EMBEDDING_CACHE w) aid_list in
  computations (tbd_embedding ibs aid_list config use_depc w).2
  = computations w ++
    (if decide (dirty = []) then [] else [computation_event use_depc dirty]).
Proof.
  intros dirty. unfold tbd_embedding. cbn [bind M_monad]. unfold M_bind, get_cache at 1.
  fold (dirty_aids_of (GLOBAL_EMBEDDING_CACHE w) aid_list). fold dirty.
  destruct (decide (dirty = [])) as [Hnil | Hne].
  - rewrite Hnil. simpl. by rewrite app_nil_r.
  - rewrite bool_decide_true by (destruct dirty; [done | simpl; lia]).
    pose proof (compute_dirty_embeddings_run ibs dirty config use_depc w) as Hw.
    destruct (compute_dirty_embeddings ibs dirty config use_depc w) as [[embs | e] w1];
      simpl in Hw; subst w1; [| done].
    rewrite cache_fold_run. reflexivity.
Qed.

(** The embedding of one query, through the host's dependency cache:
    it is returned as soon as the host answers a request for one
    annotation with one embedding. *)
Lemma tbd_embedding_query ibs (qaid : Z) config (w : world) :
  (∀ aid, ∃ e, depc_annot_get ibs config [aid] = Ok [e]) →
  ∃ e w', tbd_embedding ibs [qaid] config true w = (Ok [e], w').
Proof.
  intros Hdepc. destruct (GLOBAL_EMBEDDING_CACHE w !! qaid) as [e |] eqn:Hc.
  - destruct (tbd_embedding_hit ibs [qaid] config true w) as (out & Hrun & Hlen & _).
    { intros aid ->%list_elem_of_singleton. by rewrite Hc. }
    destruct out as [| e' [| ? ?]]; [done | | done]. eauto.
  - destruct (Hdepc qaid) as [e He].
    pose proof (tbd_embedding_run ibs [qaid] config true w [e]) as Hrun.
    cbv zeta in Hrun. unfold dirty_aids_of in Hrun.
    rewrite filter_cons, decide_True, filter_nil in Hrun by done.
    rewrite Hrun.
    + cbn [zip zip_with foldl fst snd]. unfold ut_take.
      cbn [for_list bind ret result_monad]. unfold dict_getitem.
      rewrite lookup_insert_eq. cbn. eauto.
    + intros _. unfold compute_dirty_embeddings. cbn [bind M_monad]. unfold M_bind.
      cbn. exact He.
Qed.

(** The first loop of the scoring operation on an empty database: the
    plugin's own code raises nothing there, so the loop returns when the
    collaborators do. *)
Lemma score_queries_empty_database ibs metrics (config : TbdConfig) (qaids : list Z)
    (w : world) :
  (∀ aid, ∃ e, depc_annot_get ibs (config_path config) [aid] = Ok [e]) →
  (use_knn config = true → ∀ e, ∃ rows, pred_light metrics [e] [] [] = Ok rows) →
  (use_knn config = false →
   ∀ e, ∃ row distmat, compute_distance_matrix metrics [e] [] = Ok (row :: distmat)) →
  ∃ qaid_score_dict w',
    score_queries ibs metrics config qaids [] w = (Ok qaid_score_dict, w').
Proof.
  intros Hdepc Hknn Hdist. unfold score_queries.
  generalize (∅ : gmap Z (gmap Z num)). revert w.
  induction qaids as [| qaid qaids IH]; intros w acc; [by eexists _, _ |].
  cbn [for_fold bind M_monad]. unfold M_bind at 1.
  destruct (tbd_embedding_query ibs qaid (config_path config) w Hdepc) as (e & w1 & Hq).
  destruct (use_knn config) eqn:Hmode.
  - destruct (Hknn eq_refl e) as [rows Hrows].
    destruct (pipeline_aid_scores_total ibs rows []) as [scores Hscores].
    unfold tbd_predict_light. cbn [bind M_monad]. unfold M_bind.
    replace (tbd_embedding ibs [] (config_path config) true w) with (Ok ([] : list embedding), w)
      by (by destruct w).
    rewrite Hq. unfold lift. cbn [map]. rewrite Hrows, Hscores. cbn [ret]. unfold M_ret.
    apply IH.
  - destruct (Hdist eq_refl e) as (row & distmat & Hmat).
    unfold tbd_predict_light_distance. cbn [bind M_monad]. unfold M_bind.
    unfold lift at 1. cbn [assert bool_decide length].
    replace (tbd_embedding ibs [] (config_path config) true w) with (Ok ([] : list embedding), w)
      by (by destruct w).
    rewrite Hq. unfold lift. rewrite Hmat. cbn [first_item ret]. unfold M_ret.
    apply IH.
Qed.

(** On an empty database the first query meets the scorer, and what the
    scorer raises there comes out of the operation. *)
Lemma score_queries_empty_database_raises ibs metrics (config : TbdConfig) (qaids : list Z)
    (w : world) (err : exn) :
  (∀ aid, ∃ e, depc_annot_get ibs (config_path config) [aid] = Ok [e]) →
  qaids ≠ [] →
  (if use_knn config then ∀ e, pred_light metrics [e] [] [] = Raise err
   else ∀ e, compute_distance_matrix metrics [e] [] = Raise err) →
  (score_queries ibs metrics config qaids [] w).1 = Raise err.
Proof.
  intros Hdepc Hne Hraise. destruct qaids as [| qaid qaids]; [done |].
  unfold score_queries. cbn [for_fold bind M_monad]. unfold M_bind at 1.
  destruct (tbd_embedding_query ibs qaid (config_path config) w Hdepc) as (e & w1 & Hq).
  destruct (use_knn config).
  - unfold tbd_predict_light. cbn [bind M_monad]. unfold M_bind.
    replace (tbd_embedding ibs [] (config_path config) true w) with (Ok ([] : list embedding), w)
      by (by destruct w).
    rewrite Hq. unfold lift. cbn [map]. by rewrite Hraise.
  - unfold tbd_predict_light_distance. cbn [bind M_monad]. unfold M_bind.
    unfold lift at 1. cbn [assert bool_decide length].
    replace (tbd_embedding ibs [] (config_path config) true w) with (Ok ([] : list embedding), w)
      by (by destruct w).
    rewrite Hq. unfold lift. by rewrite Hraise.
Qed.

Lemma list_of_set_nil : list_of_set [] = [].
Proof. unfold list_of_set. apply elements_empty. Qed.

Lemma list_of_set_not_nil (l : list Z) : l ≠ [] → list_of_set l ≠ [].
Proof.
  destruct l as [| x l]; [done |]. intros _ Hnil.
  assert (x ∈ list_of_set (x :: l)) as Hin
    by (unfold list_of_set; rewrite elem_of_elements, elem_of_list_to_set; by left).
  rewrite Hnil in Hin. by apply elem_of_nil in Hin.
Qed.

(** C7, as stated, fails: on an empty list [tbd_compute_embedding] raises
    [IndexError], reading the species of the first annotation. *)
Lemma C7_counterexample :
  (tbd_compute_embedding demo_ibs [] None empty_world).1 = Raise IndexError.
Proof. reflexivity. Qed.

(** C7 (amended): [tbd_embedding] returns the empty list for an empty
    list of annotations and starts no computation; it never hands an
    empty list to a computation. The pairwise scoring operation yields
    nothing when given no query, for any database. Given queries and an
    empty database it returns, yielding nothing, as soon as its
    collaborators outside the plugin do: the host answers a request for
    the embedding of one annotation with one embedding, and on an empty
    database the scorer returns ([pred_light] with [use_knn];
    [compute_distance_matrix], with at least one row, without); when the
    scorer raises on an empty database, the operation raises the same
    exception for any non-empty list of queries. [tbd_compute_embedding]
    itself needs a first annotation and raises [IndexError] on an empty
    list. *)
Theorem C7_empty_inputs (ibs : IBS) (metrics : Metrics) (config : option string)
    (tbd_config : TbdConfig) (use_depc : bool) (w : world) :
  tbd_embedding ibs [] config use_depc w = (Ok [], w) ∧
  (∀ aid_list dirty,
     computation_event use_depc dirty
       ∈ computations (tbd_embedding ibs aid_list config use_depc (World (GLOBAL_EMBEDDING_CACHE w) [])).2 →
     dirty ≠ []) ∧
  (∀ daid_list, wbia_plugin_tbd ibs metrics [] daid_list tbd_config w = (Ok [], w)) ∧
  ((∀ aid, ∃ e, depc_annot_get ibs (config_path tbd_config) [aid] = Ok [e]) →
   (use_knn tbd_config = true → ∀ e, ∃ rows, pred_light metrics [e] [] [] = Ok rows) →
   (use_knn tbd_config = false →
    ∀ e, ∃ row distmat, compute_distance_matrix metrics [e] [] = Ok (row :: distmat)) →
   ∀ qaid_list, ∃ w', wbia_plugin_tbd ibs metrics qaid_list [] tbd_config w = (Ok [], w')) ∧
  (∀ qaid_list err,
     (∀ aid, ∃ e, depc_annot_get ibs (config_path tbd_config) [aid] = Ok [e]) →
     qaid_list ≠ [] →
     (if use_knn tbd_config then ∀ e, pred_light metrics [e] [] [] = Raise err
      else ∀ e, compute_distance_matrix metrics [e] [] = Raise err) →
     (wbia_plugin_tbd ibs metrics qaid_list [] tbd_config w).1 = Raise err) ∧
  (∀ qaid_list ys,
     (wbia_plugin_tbd ibs metrics qaid_list [] tbd_config w).1 = Ok ys → ys = []) ∧
  (tbd_compute_embedding ibs [] config w).1 = Raise IndexError.
Proof.
  split; [by destruct w |].
  split.
  { intros aid_list dirty. rewrite tbd_embedding_log. simpl.
    destruct (decide (dirty_aids_of (GLOBAL_EMBEDDING_CACHE w) aid_list = []))
      as [Hnil | Hne].
    - intros Hin. by apply elem_of_nil in Hin.
    - intros Hin%list_elem_of_singleton.
      destruct use_depc; simpl in Hin; injection Hin as ->; done. }
  split.
  { intros daid_list. unfold wbia_plugin_tbd. rewrite list_of_set_nil. by destruct w. }
  split.
  { intros Hdepc Hknn Hdist qaid_list.
    destruct (score_queries_empty_database ibs metrics tbd_config (list_of_set qaid_list) w
                Hdepc Hknn Hdist) as (qaid_score_dict & w' & Hrun).
    exists w'. unfold wbia_plugin_tbd. cbn [bind M_monad]. unfold M_bind.
    rewrite list_of_set_nil, Hrun. cbn [ret]. unfold M_ret, yield_scores.
    by destruct qaid_list. }
  split.
  { intros qaid_list err Hdepc Hne Hraise.
    pose proof (score_queries_empty_database_raises ibs metrics tbd_config
                  (list_of_set qaid_list) w err Hdepc (list_of_set_not_nil _ Hne) Hraise)
      as Hrun.
    unfold wbia_plugin_tbd. cbn [bind M_monad]. unfold M_bind.
    rewrite list_of_set_nil.
    destruct (score_queries ibs metrics tbd_config (list_of_set qaid_list) [] w)
      as [[qsd | e] w1]; simpl in Hrun |- *; congruence. }
  split; [| reflexivity].
  intros qaid_list ys (qsd & ->)%wbia_plugin_tbd_Ok.
  apply length_zero_iff_nil. rewrite yield_scores_length. simpl. lia.
Qed.

Lemma C7_witness :
  (∃ w', wbia_plugin_tbd demo_ibs demo_metrics [1; 2; 1]%Z []
           {| config_path := None; use_knn := true |} empty_world = (Ok [], w')) ∧
  (∃ w', wbia_plugin_tbd demo_ibs demo_metrics [1; 2; 1]%Z []
           {| config_path := None; use_knn := false |} empty_world = (Ok [], w')).
Proof.
  split.
  - refine (proj1 (proj2 (proj2 (proj2
              (C7_empty_inputs demo_ibs demo_metrics None
                 {| config_path := None; use_knn := true |} true empty_world)))) _ _ _ _).
    + intros aid. by eexists.
    + intros _ e. by eexists.
    + discriminate.
  - refine (proj1 (proj2 (proj2 (proj2
              (C7_empty_inputs demo_ibs demo_metrics None
                 {| config_path := None; use_knn := false |} true empty_world)))) _ _ _ _).
    + intros aid. by eexists.
    + discriminate.
    + intros _ e. by eexists _, _.
Defined.

(** A scorer that refuses an empty database stops the operation. *)
Example wbia_plugin_tbd_empty_database_refused :
  (wbia_plugin_tbd demo_ibs
     {| pred_light := λ _ _ db_labels,
          match db_labels with
          | [] => Raise ValueError
          | _ => pred_light demo_metrics [] [] db_labels
          end;
        compute_distance_matrix := compute_distance_matrix demo_metrics |}
     [1]%Z [] {| config_path := None; use_knn := true |} empty_world).1
  = Raise ValueError.
Proof. vm_compute. reflexivity. Qed.

(** ** The model's forward path *)

Example demo_net_built (dim : nat) :
  MiewIdNet_init demo_timm (demo_params true dim) = Ok (demo_net dim).
Proof. reflexivity. Qed.

(** The first normalisation of [extract_feat], on the pooled features. *)
Lemma apply_bn_pooled (mode : bool) (self : MiewIdNet) (x : tensor) :
  apply_bn mode (bn self) (GeMPooled (BackboneOut (backbone self) x))
  = if (mode && bool_decide (batch x = 1%positive))%bool then Raise ValueError
    else if decide (backbone self = bn self)
         then Ok (BatchNorm1dOut (bn self) (GeMPooled (BackboneOut (backbone self) x)))
         else Raise RuntimeError.
Proof. reflexivity. Qed.

(** Whatever [use_fc] says, what [extract_feat] returns is the output of
    the first batch normalisation. *)
Lemma extract_feat_returns_bn (self : MiewIdNet) (x : tensor) (calls : list submodule) :
  match (extract_feat self x calls).1 with
  | Ok feature =>
      feature = BatchNorm1dOut (bn self) (GeMPooled (BackboneOut (backbone self) x)) ∧
      width feature = backbone self
  | Raise _ => True
  end.
Proof.
  unfold extract_feat. cbn [bind T_monad]. unfold T_bind, call. cbn [fst snd].
  rewrite apply_bn_pooled.
  destruct (training self && bool_decide (batch x = 1%positive))%bool eqn:Hone; [done |].
  destruct (decide (backbone self = bn self)) as [Heq | Hne]; [| done].
  destruct (use_fc self); [| done].
  destruct (dropout self); cbn; [| done].
  unfold apply_bn. cbn [width batch]. rewrite Hone, decide_True by done.
  destruct (fc self) as [io |]; cbn; [| done].
  destruct (apply_linear io _); cbn; [| done].
  split; [done | congruence].
Qed.

(** C2 (the code departs from the claim): on a model built with [use_fc]
    the dropout, the second normalisation and the projection are run and
    their result [x1] is dropped. With the default [fc_dim = 512] on an
    [efficientnet_b0] backbone (1280 features) [extract_feat] raises on
    every batch, the normalisation being [fc_dim] wide: in training mode
    on a batch of two images or more, and in inference mode on any batch
    (a one-image batch in training mode is refused by the normalisation
    before that); with [fc_dim = 1280] it returns the normalised pooled
    features, which went through no projection. *)
Theorem C2_extract_feat_use_fc :
  (∀ n : positive,
     extract_feat (demo_net 512) (Images (Pos.succ n)) []
     = (Raise RuntimeError, [call_backbone; call_pooling; call_bn]) ∧
     extract_feat (set_training (demo_net 512) false) (Images n) []
     = (Raise RuntimeError, [call_backbone; call_pooling; call_bn]) ∧
     extract_feat (demo_net 1280) (Images (Pos.succ n)) []
     = (Ok (BatchNorm1dOut 1280 (GeMPooled (BackboneOut 1280 (Images (Pos.succ n))))),
        [call_backbone; call_pooling; call_bn; call_dropout; call_bn; call_fc]) ∧
     extract_feat (set_training (demo_net 1280) false) (Images n) []
     = (Ok (BatchNorm1dOut 1280 (GeMPooled (BackboneOut 1280 (Images n)))),
        [call_backbone; call_pooling; call_bn; call_dropout; call_bn; call_fc])) ∧
  extract_feat (demo_net 512) (Images 1) []
  = (Raise ValueError, [call_backbone; call_pooling; call_bn]) ∧
  ∀ (self : MiewIdNet) (x : tensor) (calls : list submodule),
    match (extract_feat self x calls).1 with
    | Ok feature =>
        feature = BatchNorm1dOut (bn self) (GeMPooled (BackboneOut (backbone self) x)) ∧
        width feature = backbone self
    | Raise _ => True
    end.
Proof.
  split; [| split; [reflexivity | apply extract_feat_returns_bn]].
  intros n. repeat split; destruct n; reflexivity.
Qed.

Lemma extract_feat_no_final (self : MiewIdNet) (x : tensor) (calls : list submodule) :
  call_final ∉ calls → call_final ∉ (extract_feat self x calls).2.
Proof.
  intros Hnot. unfold extract_feat. cbn [bind T_monad]. unfold T_bind, call. cbn [fst snd].
  assert (∀ l : list submodule, call_final ∉ l → ∀ m, m ≠ call_final → call_final ∉ l ++ [m])
    as Hsnoc.
  { intros l Hl m Hm [? | Heq%list_elem_of_singleton]%elem_of_app; [done | congruence]. }
  destruct (apply_bn (training self) (bn self) _) as [x1 |]; cbn; [| auto].
  destruct (use_fc self); cbn; [| auto].
  destruct (rbind (getattr (dropout self)) _) as [x2 |]; cbn; [| auto 6].
  destruct (apply_bn (training self) (bn self) x2) as [x3 |]; cbn; [| auto 7].
  destruct (rbind (getattr (fc self)) _) as [x4 |]; cbn; auto 8.
Qed.

(** C6, as stated, fails: the features are extracted before the label is
    looked at, so a training-mode forward pass without a label raises
    what the feature extraction raises when that fails. On the model
    built with [use_fc] and the default [fc_dim = 512] a batch of two
    images raises [RuntimeError], and on any model a one-image batch
    raises [ValueError]; neither is an assertion failure. *)
Lemma C6_counterexample :
  training (demo_net 512) = true ∧
  forward (demo_net 512) (Images 2) None []
  = (Raise RuntimeError, [call_backbone; call_pooling; call_bn]) ∧
  training (demo_net 1280) = true ∧
  forward (demo_net 1280) (Images 1) None []
  = (Raise ValueError, [call_backbone; call_pooling; call_bn]).
Proof. repeat split. Qed.

(** C6 (amended): in training mode a forward pass without a label never
    returns a result and never calls the loss head (the calls made are
    those of the feature extraction); it raises [AssertionError] when the
    feature extraction returns, and the exception of the feature
    extraction when that raises. Out of training mode the forward pass
    is the feature extraction, whatever the label. *)
Theorem C6_forward_label (self : MiewIdNet) (x : tensor) (calls : list submodule) :
  (training self = true →
     forward self x None calls
     = (match (extract_feat self x calls).1 with
        | Ok _ => Raise AssertionError
        | Raise e => Raise e
        end, (extract_feat self x calls).2) ∧
     (∀ logits, (forward self x None calls).1 ≠ Ok logits) ∧
     (call_final ∉ calls → call_final ∉ (forward self x None calls).2)) ∧
  (training self = false →
     ∀ label, forward self x label calls = extract_feat self x calls).
Proof.
  split.
  - intros Htrain.
    assert (forward self x None calls
            = (match (extract_feat self x calls).1 with
               | Ok _ => Raise AssertionError
               | Raise e => Raise e
               end, (extract_feat self x calls).2)) as Hrun.
    { unfold forward. cbn [bind T_monad]. unfold T_bind at 1. rewrite Htrain.
      destruct (extract_feat self x calls) as [[feature | e] calls']; done. }
    split; [done |]. rewrite Hrun. split; [| apply extract_feat_no_final].
    intros logits. cbn [fst]. by destruct (extract_feat self x calls).1.
  - intros Heval label. unfold forward. cbn [bind T_monad]. unfold T_bind at 1.
    rewrite Heval. destruct (extract_feat self x calls) as [[feature | e] calls']; done.
Qed.

Lemma C6_witness :
  training (demo_net 1280) = true ∧
  forward (demo_net 1280) (Images 2) None []
  = (Raise AssertionError,
     [call_backbone; call_pooling; call_bn; call_dropout; call_bn; call_fc]) ∧
  training (set_training (demo_net 1280) false) = false ∧
  forward (set_training (demo_net 1280) false) (Images 1) None []
  = extract_feat (set_training (demo_net 1280) false) (Images 1) [].
Proof.
  split; [reflexivity |]. split.
  - exact (proj1 (proj1 (C6_forward_label (demo_net 1280) (Images 2) []) eq_refl)).
  - split; [reflexivity |].
    exact (proj2 (C6_forward_label (set_training (demo_net 1280) false) (Images 1) [])
             eq_refl None).
Defined.

Example forward_with_label :
  forward (demo_net 1280) (Images 2) (Some [0; 1]%Z) []
  = (Ok (ArcFaceOut 1280 10 (BatchNorm1dOut 1280 (GeMPooled (BackboneOut 1280 (Images 2))))),
     [call_backbone; call_pooling; call_bn; call_dropout; call_bn; call_fc; call_final]).
Proof. reflexivity. Qed.

(** ** Training set-up *)

Lemma nn_Dropout_Ok (p : Q) : (0 <= p <= 1)%Q → nn_Dropout p = Ok p.
Proof.
  intros [H0 H1]. unfold nn_Dropout.
  apply Qle_bool_iff in H0, H1. by rewrite H0, H1.
Qed.

Lemma nn_Dropout_outcome (p : Q) :
  match nn_Dropout p with
  | Ok q => q = p ∧ (0 <= p <= 1)%Q
  | Raise e => e = ValueError ∧ ¬ (0 <= p <= 1)%Q
  end.
Proof.
  unfold nn_Dropout.
  destruct (Qle_bool 0 p) eqn:H0; destruct (Qle_bool p 1) eqn:H1; cbn [andb].
  - split; [done |]. split; by apply Qle_bool_iff.
  - split; [done |]. intros [_ H%Qle_bool_iff]. congruence.
  - split; [done |]. intros [H%Qle_bool_iff _]. congruence.
  - split; [done |]. intros [H%Qle_bool_iff _]. congruence.
Qed.

(** The constructor returns when the backbone can be built and, with
    [use_fc], the dropout probability lies between 0 and 1. *)
Lemma MiewIdNet_init_Ok timm (params : ModelParams) (features : nat) :
  timm (model_name params) (pretrained params) = Ok features →
  (mp_use_fc params = true → (0 <= mp_dropout params <= 1)%Q) →
  ∃ net, MiewIdNet_init timm params = Ok net.
Proof.
  intros Htimm Hdrop. unfold MiewIdNet_init. cbn [bind result_monad]. unfold rbind.
  rewrite Htimm. destruct (mp_use_fc params).
  - rewrite nn_Dropout_Ok by auto. by eexists.
  - by eexists.
Qed.

Lemma MiewIdNet_init_classes timm (params : ModelParams) (net : MiewIdNet) :
  MiewIdNet_init timm params = Ok net → head_classes (final net) = n_classes params.
Proof.
  unfold MiewIdNet_init. cbn [bind result_monad]. unfold rbind.
  destruct (timm _ _) as [features | e]; [| done].
  destruct (mp_use_fc params); [destruct (nn_Dropout _); [| done] |];
    intros [= <-]; simpl;
    destruct (decide (mp_loss_module params = "arcface"%string)); done.
Qed.

(** Whether the constructor raises, and what, does not depend on the
    class count. *)
Lemma MiewIdNet_init_n_classes timm (config : Config) (n : nat) (e : exn) :
  MiewIdNet_init timm (model_params (set_n_classes config n)) = Raise e ↔
  MiewIdNet_init timm (model_params config) = Raise e.
Proof.
  unfold MiewIdNet_init. cbn [bind result_monad]. unfold rbind.
  cbn [set_n_classes model_params model_name pretrained mp_use_fc mp_dropout].
  destruct (timm _ _) as [features |]; [| done].
  destruct (mp_use_fc (model_params config)); [| done].
  by destruct (nn_Dropout _).
Qed.

(** C8: when the configured class count differs from the number of
    identities observed in the training data, the set-up prints the
    warning of line 108, overwrites the configured count with the
    observed one and builds the model for the observed count, whenever
    the constructor can build the model (the backbone exists and, with
    [use_fc], the dropout probability lies between 0 and 1). The
    mismatch raises nothing: the set-up raises an exception only if the
    constructor raises it on the configuration as given, with its own
    class count. *)
Theorem C8_n_classes_override (timm : string → bool → result nat) (config : Config)
    (n_train_classes : nat) :
  n_classes (model_params config) ≠ n_train_classes →
  (∀ features,
     timm (model_name (model_params config)) (pretrained (model_params config)) = Ok features →
     (mp_use_fc (model_params config) = true →
      (0 <= mp_dropout (model_params config) <= 1)%Q) →
     ∃ st,
       run_model_setup timm config n_train_classes = Ok st ∧
       stdout st
       = [("WARNING: Overriding n_classes in config ("
           +:+ pretty (n_classes (model_params config))
           +:+ ") which is different from actual n_train_classes ("
           +:+ pretty n_train_classes
           +:+ "). This parameters has to be readjusted in config for proper checkpoint loading after training.")%string;
          ("Building Model Backbone for " +:+ model_name (model_params config)
           +:+ " model")%string] ∧
       config_after st = set_n_classes config n_train_classes ∧
       n_classes (model_params (config_after st)) = n_train_classes ∧
       MiewIdNet_init timm (model_params (config_after st)) = Ok (model st) ∧
       head_classes (final (model st)) = n_train_classes) ∧
  (∀ e, run_model_setup timm config n_train_classes = Raise e ↔
        MiewIdNet_init timm (model_params config) = Raise e).
Proof.
  intros Hne. split.
  - intros features Htimm Hdrop. unfold run_model_setup. rewrite decide_True by done.
    destruct (MiewIdNet_init_Ok timm (model_params (set_n_classes config n_train_classes))
                features Htimm Hdrop) as [net Hinit].
    rewrite Hinit. eexists. cbn [bind result_monad rbind]. split; [reflexivity |]. cbn.
    repeat split; [done |].
    by apply MiewIdNet_init_classes in Hinit.
  - intros e. rewrite <- (MiewIdNet_init_n_classes timm config n_train_classes).
    unfold run_model_setup. rewrite decide_True by done.
    destruct (MiewIdNet_init timm (model_params (set_n_classes config n_train_classes)));
      cbn [bind result_monad rbind]; [split; intros H; discriminate H |].
    split; intros [= ->]; done.
Qed.

Lemma C8_witness :
  n_classes (model_params demo_config) ≠ 7 ∧
  ∃ st, run_model_setup demo_timm demo_config 7 = Ok st ∧
        stdout st
        = ["WARNING: Overriding n_classes in config (10) which is different from actual n_train_classes (7). This parameters has to be readjusted in config for proper checkpoint loading after training.";
           "Building Model Backbone for efficientnet_b0 model"]%string ∧
        n_classes (model_params (config_after st)) = 7 ∧
        head_classes (final (model st)) = 7.
Proof.
  split; [discriminate |].
  destruct (proj1 (C8_n_classes_override demo_timm demo_config 7 ltac:(discriminate))
              1280 eq_refl ltac:(discriminate))
    as (st & Hrun & Hout & _ & Hn & _ & Hhead).
  exists st. split; [exact Hrun |]. split; [exact Hout |]. split; [exact Hn | exact Hhead].
Defined.

Example run_model_setup_demo :
  stdout <$> (match run_model_setup demo_timm demo_config 7 with
              | Ok st => Some st
              | Raise _ => None
              end)
  = Some ["WARNING: Overriding n_classes in config (10) which is different from actual n_train_classes (7). This parameters has to be readjusted in config for proper checkpoint loading after training.";
          "Building Model Backbone for efficientnet_b0 model"]%string.
Proof. vm_compute. reflexivity. Qed.

Example run_model_setup_same_count :
  run_model_setup demo_timm demo_config 10
  = (net <- MiewIdNet_init demo_timm (model_params demo_config) ;;
     Ok {| stdout := [building_banner (model_params demo_config)];
           config_after := demo_config; model := net |}).
Proof. reflexivity. Qed.

(** With [use_fc], a dropout probability outside [0, 1] stops the
    constructor, and the set-up with it. *)
Example run_model_setup_bad_dropout :
  run_model_setup demo_timm
    {| exp_name := "demo"; project_name := "miewid"; checkpoint_dir := "runs";
       model_params :=
         {| model_name := "efficientnet_b0"; mp_use_fc := true; fc_dim := 512;
            mp_dropout := (3 # 2)%Q; mp_loss_module := "arcface"; s := 30%Q;
            margin := (1 # 2)%Q; ls_eps := 0%Q; theta_zero := (785 # 1000)%Q;
            pretrained := true; n_classes := 10 |} |} 7
  = Raise ValueError.
Proof. reflexivity. Qed.

(** ** GeM pooling *)

Section gem.
Local Open Scope R_scope.

Lemma rectangular_sizes (h w : nat) (x : plane) :
  (0 < h)%nat → rectangular h w x → size_rows x = h ∧ size_cols x = w.
Proof.
  intros Hh [Hlen Hrows]. split; [done |].
  destruct x as [| row x]; [simpl in Hlen; lia |].
  by apply Forall_cons in Hrows as [Hrow _].
Qed.

Lemma rectangular_map (f : R → R) (h w : nat) (x : plane) :
  rectangular h w x → rectangular h w (map (map f) x).
Proof.
  intros [Hlen Hrows]. split; [by rewrite length_map |].
  apply Forall_fmap. eapply Forall_impl; [exact Hrows |].
  intros row Hrow. simpl. by rewrite length_map.
Qed.

Lemma concat_map_map (f : R → R) (x : plane) :
  concat (map (map f) x) = map f (concat x).
Proof.
  induction x as [| row x IH]; [done |]. simpl. by rewrite IH, map_app.
Qed.

(** The window of a pooling as large as the plane is the whole plane. *)
Lemma window_full (h w : nat) (x : plane) :
  rectangular h w x → window x h w 0 0 = concat x.
Proof.
  intros [Hlen Hrows]. unfold window.
  rewrite !Nat.mul_0_l, drop_0, take_ge by lia. f_equal. clear Hlen.
  induction Hrows as [| row x Hrow _ IH]; [done |].
  cbn [map]. rewrite drop_0, take_ge by lia. f_equal. apply IH.
Qed.

Lemma avg_pool2d_full (h w : nat) (x : plane) :
  (0 < h)%nat → (0 < w)%nat → rectangular h w x →
  avg_pool2d x h w = Ok [[Rsum (concat x) / INR (h * w)]].
Proof.
  intros Hh Hw Hrect. destruct (rectangular_sizes h w x Hh Hrect) as [Hr Hc].
  unfold avg_pool2d. destruct h as [| h']; [lia |]. destruct w as [| w']; [lia |].
  rewrite Hr, Hc, !Nat.div_same by lia. simpl seq. cbn [map].
  by rewrite (window_full _ _ x Hrect).
Qed.

Lemma Rsum_pos (l : list R) (eps : R) :
  0 < eps → l ≠ [] → Forall (λ v, eps <= v) l → 0 < Rsum l.
Proof.
  intros Heps Hne Hall. destruct l as [| v l]; [done |].
  apply Forall_cons in Hall as [Hv Hall]. simpl.
  assert (0 <= Rsum l) as Hrest.
  { clear Hne Hv. induction Hall as [| u l Hu _ IH]; simpl; lra. }
  lra.
Qed.

Lemma gem_formula (h w : nat) (x : plane) (p eps : R) :
  (0 < h)%nat → (0 < w)%nat → rectangular h w x →
  gem x p eps
  = Ok [[Rpower (Rsum (map (λ v, Rpower (Rmax v eps) p) (concat x)) / INR (h * w))
                (1 / p)]].
Proof.
  intros Hh Hw Hrect. destruct (rectangular_sizes h w x Hh Hrect) as [Hr Hc].
  unfold gem. rewrite Hr, Hc.
  rewrite (avg_pool2d_full h w) by
    (try done; unfold tensor_pow, clamp_min; by do 2 apply rectangular_map).
  cbn [bind result_monad rbind tensor_pow map]. do 3 f_equal.
  unfold tensor_pow, clamp_min. rewrite !concat_map_map, map_map. done.
Qed.
End gem.

(** C9: on a plane of [h > 0] rows of [w > 0] entries GeM pooling is the
    [1/p]-th power of the mean, over the [h * w] positions, of the
    [p]-th powers of the entries clamped from below at [eps]; with
    [p = 1], [eps > 0] and every entry at least [eps], it is the average
    pooling of the plane. (Real arithmetic: rounding is not modelled.) *)
Theorem C9_gem_pooling (self : GeM) (h w : nat) (x : plane) :
  (0 < h)%nat → (0 < w)%nat → rectangular h w x →
  GeM_forward self x
  = Ok [[Rpower (Rsum (map (λ v, Rpower (Rmax v (eps self)) (p self)) (concat x))
                 / INR (h * w))
                (1 / p self)]] ∧
  (p self = 1%R → (0 < eps self)%R → Forall (Forall (λ v, (eps self <= v)%R)) x →
   GeM_forward self x = avg_pool2d x h w ∧
   GeM_forward self x = Ok [[(Rsum (concat x) / INR (h * w))%R]]).
Proof.
  intros Hh Hw Hrect. unfold GeM_forward. split; [by apply gem_formula |].
  destruct self as [p0 eps0]. simpl. intros -> Heps Hall.
  rewrite (gem_formula h w) by done. rewrite (avg_pool2d_full h w) by done.
  assert (Forall (λ v, (eps0 <= v)%R) (concat x)) as Hflat.
  { clear Hrect. induction Hall as [| row x Hrow _ IH]; [constructor |].
    simpl. by apply Forall_app. }
  assert (map (λ v, Rpower (Rmax v eps0) 1) (concat x) = concat x) as ->.
  { induction Hflat as [| v l Hv _ IH]; [done |].
    simpl. rewrite IH, Rmax_left by done. f_equal. apply Rpower_1. lra. }
  assert (concat x ≠ []) as Hne.
  { destruct Hrect as [Hlen Hrows]. destruct x as [| row x]; [simpl in Hlen; lia |].
    apply Forall_cons in Hrows as [Hrow _]. destruct row; [simpl in Hrow; lia | done]. }
  assert (0 < Rsum (concat x) / INR (h * w))%R as Hpos.
  { apply Rdiv_lt_0_compat; [by apply (Rsum_pos _ eps0) |]. apply lt_0_INR. nia. }
  replace (1 / 1)%R with 1%R by lra. by rewrite Rpower_1.
Qed.

Lemma C9_witness :
  let x : plane := [[1; 2]; [3; 4]]%R in
  let self := {| p := 1%R; eps := eps GeM_default |} in
  rectangular 2 2 x ∧
  Forall (Forall (λ v, (eps self <= v)%R)) x ∧
  GeM_forward self x = avg_pool2d x 2 2.
Proof.
  intros x self.
  assert (rectangular 2 2 x) as Hrect by (split; [reflexivity | repeat constructor]).
  assert (Forall (Forall (λ v, (eps self <= v)%R)) x) as Hall
    by (repeat constructor; simpl; lra).
  split; [exact Hrect |]. split; [exact Hall |].
  refine (proj1 (proj2 (C9_gem_pooling self 2 2 x _ _ Hrect) eq_refl _ Hall));
    [lia | lia | simpl; lra].
Defined.

(** * Further properties of the plugin *)

(** ** The cache never loses an entry *)

Lemma foldl_insert_keep (pairs : list (Z * embedding)) (c : gmap Z embedding) (aid : Z)
    (e : embedding) :
  (∀ k, k ∈ pairs.*1 → c !! k = None) →
  c !! aid = Some e →
  foldl (λ c kv, <[kv.1 := kv.2]> c) c pairs !! aid = Some e.
Proof.
  intros Hfresh He.
  destruct (foldl_insert_lookup pairs c aid) as [[_ Heq] | (j & v & Hj & _)]; [congruence |].
  assert (aid ∈ pairs.*1) as Hin.
  { apply list_elem_of_fmap. exists (aid, v). split; [done |]. by eapply list_elem_of_lookup_2. }
  apply Hfresh in Hin. congruence.
Qed.

Lemma zip_keys_dirty (c : gmap Z embedding) (aid_list : list Z) (embs : list embedding) (k : Z) :
  k ∈ (zip (dirty_aids_of c aid_list) embs).*1 → c !! k = None.
Proof.
  intros ((k' & v) & -> & Hin)%list_elem_of_fmap.
  apply list_elem_of_lookup in Hin as [j Hj].
  apply zip_fst_lookup in Hj as [Hj _].
  by apply list_elem_of_lookup_2, dirty_aids_of_spec in Hj as [_ Hnone].
Qed.

(** The state a run of [tbd_embedding] ends in, whatever its outcome. *)
Lemma tbd_embedding_world ibs aid_list config use_depc (w : world) :
  let cache := GLOBAL_EMBEDDING_CACHE w in
  let dirty := dirty_aids_of cache aid_list in
  (tbd_embedding ibs aid_list config use_depc w).2
  = World (if decide (dirty = []) then cache
           else match (compute_dirty_embeddings ibs dirty config use_depc w).1 with
                | Ok embs => foldl (λ c kv, <[kv.1 := kv.2]> c) cache (zip dirty embs)
                | Raise _ => cache
                end)
          (computations w ++
           if decide (dirty = []) then [] else [computation_event use_depc dirty]).
Proof.
  intros cache dirty. unfold tbd_embedding. cbn [bind M_monad]. unfold M_bind, get_cache at 1.
  fold cache. fold (dirty_aids_of cache aid_list). fold dirty.
  destruct (decide (dirty = [])) as [Hnil | Hne].
  - rewrite Hnil. simpl. rewrite app_nil_r. by destruct w.
  - rewrite bool_decide_true by (destruct dirty; [done | simpl; lia]).
    pose proof (compute_dirty_embeddings_run ibs dirty config use_depc w) as Hw.
    destruct (compute_dirty_embeddings ibs dirty config use_depc w) as [[embs | e] w1];
      simpl in Hw; subst w1; [| done].
    rewrite cache_fold_run. reflexivity.
Qed.

Lemma tbd_embedding_keeps ibs aid_list config use_depc :
  keeps_cache (tbd_embedding ibs aid_list config use_depc).
Proof.
  intros w aid e He. rewrite tbd_embedding_world. cbn [GLOBAL_EMBEDDING_CACHE].
  destruct (decide _); [done |].
  destruct (compute_dirty_embeddings _ _ _ _ _).1 as [embs |]; [| done].
  apply foldl_insert_keep; [| done]. intros k. apply zip_keys_dirty.
Qed.

(** X1: whatever a run of [tbd_embedding] does (return or raise), every
    embedding that was in the cache before is in it afterwards,
    unchanged: nothing is evicted or overwritten. *)
Theorem tbd_embedding_keeps_cache (ibs : IBS) (aid_list : list Z) (config : option string)
    (use_depc : bool) :
  keeps_cache (tbd_embedding ibs aid_list config use_depc).
Proof. apply tbd_embedding_keeps. Qed.

(** X2: when the computation of the missing embeddings raises,
    [tbd_embedding] raises the same exception and the cache is exactly
    as it was; only the attempt is on record. *)
Theorem tbd_embedding_failure_atomic (ibs : IBS) (aid_list : list Z) (config : option string)
    (use_depc : bool) (w : world) (e : exn) :
  let dirty := dirty_aids_of (GLOBAL_EMBEDDING_CACHE w) aid_list in
  dirty ≠ [] →
  (compute_dirty_embeddings ibs dirty config use_depc w).1 = Raise e →
  tbd_embedding ibs aid_list config use_depc w
  = (Raise e, World (GLOBAL_EMBEDDING_CACHE w)
                    (computations w ++ [computation_event use_depc dirty])).
Proof.
  intros dirty Hne Hraise.
  unfold tbd_embedding. cbn [bind M_monad]. unfold M_bind, get_cache at 1.
  fold (dirty_aids_of (GLOBAL_EMBEDDING_CACHE w) aid_list). fold dirty.
  rewrite bool_decide_true by (destruct dirty; [done | simpl; lia]).
  pose proof (compute_dirty_embeddings_run ibs dirty config use_depc w) as Hw.
  destruct (compute_dirty_embeddings ibs dirty config use_depc w) as [[embs | e'] w1];
    simpl in Hraise, Hw; [done |]. injection Hraise as ->. by subst w1.
Qed.

Lemma tbd_embedding_failure_atomic_witness :
  let ibs := {| UNKNOWN := UNKNOWN demo_ibs;
                annot_name_text := annot_name_text demo_ibs;
                get_annot_semantic_uuids := get_annot_semantic_uuids demo_ibs;
                get_annot_species_texts := λ _, "zebra"%string;
                depc_annot_get := depc_annot_get demo_ibs;
                _load_config := _load_config demo_ibs;
                _load_model := _load_model demo_ibs |} in
  let w := World {[2%Z := [9%Q]]} [] in
  dirty_aids_of (GLOBAL_EMBEDDING_CACHE w) [1; 2]%Z ≠ [] ∧
  (tbd_embedding ibs [1; 2]%Z None false w).1 = Raise KeyError ∧
  GLOBAL_EMBEDDING_CACHE (tbd_embedding ibs [1; 2]%Z None false w).2 = {[2%Z := [9%Q]]}.
Proof.
  intros ibs w.
  assert (dirty_aids_of (GLOBAL_EMBEDDING_CACHE w) [1; 2]%Z ≠ []) as Hne
    by (vm_compute; intros H; discriminate H).
  split; [exact Hne |].
  rewrite (tbd_embedding_failure_atomic ibs [1; 2]%Z None false w KeyError Hne);
    [split; reflexivity | vm_compute; reflexivity].
Defined.

(** [ut.take] can only fail with [KeyError], and does when a key is
    missing. *)
Lemma ut_take_missing (c : gmap Z embedding) (keys : list Z) (aid : Z) :
  aid ∈ keys → c !! aid = None → ut_take c keys = Raise KeyError.
Proof.
  unfold ut_take. induction keys as [| k keys IH]; intros Hin Hnone.
  - by apply elem_of_nil in Hin.
  - cbn [for_list bind result_monad]. unfold dict_getitem at 1.
    destruct (c !! k) as [e |] eqn:Hk; [| done]. cbn [rbind].
    rewrite IH; [done | | done].
    apply elem_of_cons in Hin as [-> | Hin]; [congruence | done].
Qed.

Lemma dirty_aids_of_NoDup (c : gmap Z embedding) (aid_list : list Z) :
  NoDup aid_list → NoDup (dirty_aids_of c aid_list).
Proof. apply NoDup_filter. Qed.

(** X3: when the distinct ids asked for include misses and the
    computation returns fewer embeddings than there are misses, the
    pairing of ids and embeddings stops short without a word, and
    [tbd_embedding] raises [KeyError] when it reads the results back. *)
Theorem tbd_embedding_short_result (ibs : IBS) (aid_list : list Z) (config : option string)
    (use_depc : bool) (w : world) (embs : list embedding) :
  let dirty := dirty_aids_of (GLOBAL_EMBEDDING_CACHE w) aid_list in
  NoDup aid_list →
  (compute_dirty_embeddings ibs dirty config use_depc w).1 = Ok embs →
  length embs < length dirty →
  (tbd_embedding ibs aid_list config use_depc w).1 = Raise KeyError.
Proof.
  intros dirty Hnd Hcompute Hshort.
  rewrite (tbd_embedding_run ibs aid_list config use_depc w embs) by done.
  cbn [fst]. fold dirty.
  destruct (lookup_lt_is_Some_2 dirty (length embs) Hshort) as [aid Haid].
  assert (aid ∈ dirty) as Hin by (by eapply list_elem_of_lookup_2).
  apply dirty_aids_of_spec in Hin as [Hin Hnone].
  apply (ut_take_missing _ _ aid Hin).
  destruct (foldl_insert_lookup (zip dirty embs) (GLOBAL_EMBEDDING_CACHE w) aid)
    as [[_ Heq] | (j & v & Hj & _)]; [congruence |].
  apply zip_fst_lookup in Hj as [Hj Hv]. apply lookup_lt_Some in Hv.
  pose proof (dirty_aids_of_NoDup (GLOBAL_EMBEDDING_CACHE w) aid_list Hnd) as Hnd'.
  fold dirty in Hnd'. pose proof (NoDup_lookup _ _ _ _ Hnd' Hj Haid). lia.
Qed.

Lemma tbd_embedding_short_result_witness :
  let ibs := {| UNKNOWN := UNKNOWN demo_ibs;
                annot_name_text := annot_name_text demo_ibs;
                get_annot_semantic_uuids := get_annot_semantic_uuids demo_ibs;
                get_annot_species_texts := get_annot_species_texts demo_ibs;
                depc_annot_get := λ _ aids, Ok (map demo_embed (take 1 aids));
                _load_config := _load_config demo_ibs;
                _load_model := _load_model demo_ibs |} in
  NoDup [1; 2; 3]%Z ∧
  (tbd_embedding ibs [1; 2; 3]%Z None true empty_world).1 = Raise KeyError.
Proof.
  intros ibs.
  assert (NoDup [1; 2; 3]%Z) as Hnd
    by (apply (bool_decide_unpack (NoDup [1; 2; 3]%Z)); vm_compute; exact I).
  split; [exact Hnd |].
  apply (tbd_embedding_short_result ibs [1; 2; 3]%Z None true empty_world [demo_embed 1] Hnd).
  - vm_compute. reflexivity.
  - vm_compute. lia.
Defined.

(** ** Composition: what the predictions and the scoring do to the cache *)

Lemma keeps_cache_ret {A} (a : A) : keeps_cache (ret a : M A).
Proof. by intros w aid e He. Qed.

Lemma keeps_cache_lift {A} (r : result A) : keeps_cache (lift r).
Proof. by intros w aid e He. Qed.

Lemma keeps_cache_bind {A B} (c : M A) (k : A → M B) :
  keeps_cache c → (∀ a, keeps_cache (k a)) → keeps_cache (x <- c ;; k x).
Proof.
  intros Hc Hk w aid e He. cbn [bind M_monad]. unfold M_bind.
  specialize (Hc w aid e He). destruct (c w) as [[a | err] w1]; simpl in *; [| done].
  by apply Hk.
Qed.

Lemma keeps_cache_for_fold {A B} (body : B → A → M B) (l : list A) (acc : B) :
  (∀ acc x, keeps_cache (body acc x)) → keeps_cache (for_fold body l acc).
Proof.
  intros Hbody. revert acc. induction l as [| x l IH]; intros acc.
  - apply keeps_cache_ret.
  - cbn [for_fold]. apply keeps_cache_bind; [apply Hbody | apply IH].
Qed.

Lemma keeps_cache_for_list {A B} (body : A → M B) (l : list A) :
  (∀ x, keeps_cache (body x)) → keeps_cache (for_list body l).
Proof.
  intros Hbody. induction l as [| x l IH].
  - apply keeps_cache_ret.
  - cbn [for_list]. apply keeps_cache_bind; [apply Hbody |].
    intros y. apply keeps_cache_bind; [apply IH |]. intros ys. apply keeps_cache_ret.
Qed.

Lemma tbd_predict_light_keeps_cache ibs metrics qaid daid_list config :
  keeps_cache (tbd_predict_light ibs metrics qaid daid_list config).
Proof.
  unfold tbd_predict_light.
  apply keeps_cache_bind; [apply tbd_embedding_keeps |]. intros db_embs.
  apply keeps_cache_bind; [apply tbd_embedding_keeps |]. intros query_emb.
  apply keeps_cache_lift.
Qed.

Lemma tbd_predict_light_distance_keeps_cache ibs metrics qaid daid_list config :
  keeps_cache (tbd_predict_light_distance ibs metrics qaid daid_list config).
Proof.
  unfold tbd_predict_light_distance.
  apply keeps_cache_bind; [apply keeps_cache_lift |]. intros _.
  apply keeps_cache_bind; [apply tbd_embedding_keeps |]. intros db_embs.
  apply keeps_cache_bind; [apply tbd_embedding_keeps |]. intros query_emb.
  apply keeps_cache_bind; [apply keeps_cache_lift |]. intros distmat.
  apply keeps_cache_lift.
Qed.

(** X4: the pairwise scoring operation, the two predictions it is built
    on and the accuracy runs never evict or overwrite a cached
    embedding, whether they return or raise: the cache only grows. *)
Theorem scoring_keeps_cache (ibs : IBS) (metrics : Metrics) (qaid_list daid_list : list Z)
    (config : TbdConfig) (qaid : Z) (path : option string) (database : option (list Z)) :
  keeps_cache (wbia_plugin_tbd ibs metrics qaid_list daid_list config) ∧
  keeps_cache (tbd_predict_light ibs metrics qaid daid_list path) ∧
  keeps_cache (tbd_predict_light_distance ibs metrics qaid daid_list path) ∧
  keeps_cache (tbd_mass_accuracy ibs metrics qaid_list database).
Proof.
  split; [| split; [apply tbd_predict_light_keeps_cache |
                    split; [apply tbd_predict_light_distance_keeps_cache |]]].
  - unfold wbia_plugin_tbd. apply keeps_cache_bind; [| intros; apply keeps_cache_ret].
    unfold score_queries. apply keeps_cache_for_fold. intros acc q.
    destruct (use_knn config).
    + apply keeps_cache_bind; [apply tbd_predict_light_keeps_cache |]. intros dists.
      apply keeps_cache_bind; [apply keeps_cache_lift |]. intros scores.
      apply keeps_cache_ret.
    + apply keeps_cache_bind; [apply tbd_predict_light_distance_keeps_cache |].
      intros dists. apply keeps_cache_ret.
  - unfold tbd_mass_accuracy. apply keeps_cache_for_list. intros aid.
    unfold _tbd_accuracy. apply keeps_cache_bind; [apply keeps_cache_lift |]. intros daids.
    apply keeps_cache_bind; [apply tbd_predict_light_keeps_cache |]. intros ans.
    destruct (list_index _ _) as [i | []];
      first [apply keeps_cache_ret | apply keeps_cache_lift].
Qed.

(** ** Computing embeddings: species and batches *)

Lemma MODELS_lookup (species : string) :
  species ≠ "whale_beluga"%string → species ≠ "delphinapterus_leucas"%string →
  MODELS !! species = None ∧ CONFIGS !! species = None.
Proof.
  intros H1 H2. unfold MODELS, CONFIGS, dict_of_pairs. simpl.
  by rewrite !lookup_insert_ne, !lookup_empty.
Qed.

(** X5: for annotations of a species other than the two the plugin has
    a model for, [tbd_compute_embedding] never returns embeddings; with
    no configuration given, or one that loads, the exception is the
    [KeyError] of the species lookup. *)
Theorem tbd_compute_embedding_unknown_species (ibs : IBS) (first : Z) (rest : list Z)
    (config : option string) (w : world) :
  let species := get_annot_species_texts ibs first in
  species ≠ "whale_beluga"%string → species ≠ "delphinapterus_leucas"%string →
  ∃ e, (tbd_compute_embedding ibs (first :: rest) config w).1 = Raise e ∧
       (config = None → e = KeyError) ∧
       (∀ path loaded, config = Some path → _load_config ibs path = Ok loaded →
                       e = KeyError).
Proof.
  intros species H1 H2. destruct (MODELS_lookup species H1 H2) as [Hm Hc].
  unfold tbd_compute_embedding. cbn [bind M_monad]. unfold M_bind, record_event, lift.
  cbn [fst first_item bind result_monad rbind]. fold species.
  unfold dict_getitem. rewrite Hm, Hc.
  destruct config as [path |]; cbn [rbind].
  - destruct (_load_config ibs path) as [loaded | e] eqn:Hload; cbn [rbind].
    + exists KeyError. by repeat split.
    + exists e. repeat split; [done |]. intros path' loaded' [= <-]. congruence.
  - exists KeyError. by repeat split.
Qed.

Lemma tbd_compute_embedding_unknown_species_witness :
  let ibs := {| UNKNOWN := UNKNOWN demo_ibs;
                annot_name_text := annot_name_text demo_ibs;
                get_annot_semantic_uuids := get_annot_semantic_uuids demo_ibs;
                get_annot_species_texts := λ _, "rhincodon_typus"%string;
                depc_annot_get := depc_annot_get demo_ibs;
                _load_config := _load_config demo_ibs;
                _load_model := _load_model demo_ibs |} in
  ∃ e, (tbd_compute_embedding ibs [1; 2]%Z (Some "tbd.yaml"%string) empty_world).1 = Raise e ∧
       e = KeyError.
Proof.
  intros ibs.
  destruct (tbd_compute_embedding_unknown_species ibs 1 [2]%Z (Some "tbd.yaml"%string)
              empty_world ltac:(discriminate) ltac:(discriminate)) as (e & Hrun & _ & Hk).
  exists e. split; [exact Hrun |]. exact (Hk _ _ eq_refl eq_refl).
Defined.

(** The batches of a loader, put end to end, are the data set. *)
Lemma batches_concat {A} (fuel n : nat) (l : list A) :
  0 < n → length l ≤ fuel → concat (batches fuel n l) = l.
Proof.
  intros Hn. revert l. induction fuel as [| fuel IH]; intros l Hlen.
  - destruct l; [done | simpl in Hlen; lia].
  - destruct l as [| x l]; [done |]. cbn [batches concat].
    rewrite IH; [apply take_drop |]. rewrite length_drop. simpl in *. lia.
Qed.

Lemma batches_nonempty {A} (fuel n : nat) (x : A) (l : list A) :
  batches (S fuel) n (x :: l) ≠ [].
Proof. done. Qed.

Lemma for_list_rowwise {A B} (f : A → B) (model : list A → result (list B))
    (loader : list (list A)) :
  (∀ batch, model batch = Ok (map f batch)) →
  for_list model loader = Ok (map (map f) loader).
Proof.
  intros Hmodel. induction loader as [| batch loader IH]; [done |].
  cbn [for_list bind result_monad]. rewrite Hmodel. cbn [rbind]. by rewrite IH.
Qed.

Lemma np_concatenate_batches {A B} (f : A → B) (n : nat) (l : list A) :
  l ≠ [] → 0 < n →
  np_concatenate (map (map f) (batches (length l) n l)) = Ok (map f l).
Proof.
  intros Hne Hn.
  assert (∀ bs : list (list A), concat (map (map f) bs) = map f (concat bs)) as Hmap.
  { induction bs as [| b bs IH]; [done |]. simpl. by rewrite map_app, IH. }
  assert (concat (map (map f) (batches (length l) n l)) = map f l) as Hcat
    by (by rewrite Hmap, batches_concat).
  destruct l as [| x l]; [done |]. rewrite <- Hcat. reflexivity.
Qed.

(** X6: for a supported species, a configuration and a model that load,
    and a model that embeds each image on its own, [tbd_compute_embedding]
    returns the embeddings of the annotations one for one and in order,
    whatever the (positive) batch size of the test loader; a batch size
    of 0 is a [ValueError]. *)
Theorem tbd_compute_embedding_batches (ibs : IBS) (first : Z) (rest : list Z) (path : string)
    (loaded : LoadedConfig) (model : Model) (model_url : string)
    (image_embedding : Z → embedding) (w : world) :
  MODELS !! get_annot_species_texts ibs first = Some model_url →
  _load_config ibs path = Ok loaded →
  _load_model ibs loaded model_url = Ok model →
  (∀ batch, model batch = Ok (map image_embedding batch)) →
  (tbd_compute_embedding ibs (first :: rest) (Some path) w).1
  = if decide (test_batch_size loaded = 0) then Raise ValueError
    else Ok (map image_embedding (first :: rest)).
Proof.
  intros Hurl Hconfig Hmodel Hrows.
  unfold tbd_compute_embedding. cbn [bind M_monad]. unfold M_bind, record_event, lift.
  cbn [fst first_item bind result_monad rbind].
  rewrite Hconfig. cbn [rbind]. unfold dict_getitem. rewrite Hurl. cbn [rbind].
  rewrite Hmodel. cbn [rbind]. unfold DataLoader.
  destruct (test_batch_size loaded) as [| n] eqn:Hn; [done |].
  rewrite decide_False by done. cbn [rbind].
  rewrite (for_list_rowwise image_embedding) by done. cbn [rbind].
  apply np_concatenate_batches; [done | lia].
Qed.

Lemma tbd_compute_embedding_batches_witness :
  (tbd_compute_embedding demo_ibs [1; 2; 3]%Z (Some "tbd.yaml"%string) empty_world).1
  = Ok (map demo_embed [1; 2; 3]%Z).
Proof.
  exact (tbd_compute_embedding_batches demo_ibs 1 [2; 3]%Z "tbd.yaml"
           {| use_gpu := false; test_batch_size := 2 |} demo_model
           "https://cthulhu.dyn.wildme.io/public/models/tbd.beluga.bin" demo_embed empty_world
           eq_refl eq_refl eq_refl (λ _, eq_refl)).
Defined.

(** ** The distance prediction's assertion *)

Lemma list_of_set_NoDup (l : list Z) : NoDup (list_of_set l).
Proof. unfold list_of_set. apply NoDup_elements. Qed.

Lemma list_of_set_elem_of (l : list Z) (x : Z) : x ∈ list_of_set l ↔ x ∈ l.
Proof. unfold list_of_set. by rewrite elem_of_elements, elem_of_list_to_set. Qed.

Lemma list_of_set_length (l : list Z) :
  length l = length (list_of_set l) ↔ NoDup l.
Proof.
  split.
  - intros Hlen.
    assert (list_of_set l ⊆+ l) as Hsub.
    { apply NoDup_submseteq; [apply list_of_set_NoDup |].
      intros x. by rewrite list_of_set_elem_of. }
    apply submseteq_length_Permutation in Hsub; [| lia].
    rewrite <- Hsub. apply list_of_set_NoDup.
  - intros Hnd. symmetry. apply Permutation_length.
    apply NoDup_Permutation; [apply list_of_set_NoDup | done |].
    intros x. apply list_of_set_elem_of.
Qed.

(** X7: [tbd_predict_light_distance] refuses a database list with a
    repeated annotation: it raises [AssertionError] before anything is
    computed, leaving cache and log untouched. On the database list the
    pairwise scoring operation passes it (a list made from a set) the
    assertion always holds. *)
Theorem tbd_predict_light_distance_duplicates (ibs : IBS) (metrics : Metrics) (qaid : Z)
    (daid_list : list Z) (config : option string) (w : world) :
  (¬ NoDup daid_list →
   tbd_predict_light_distance ibs metrics qaid daid_list config w
   = (Raise AssertionError, w)) ∧
  assert (bool_decide (length (list_of_set daid_list)
                       = length (list_of_set (list_of_set daid_list)))) = Ok tt.
Proof.
  split.
  - intros Hdup. unfold tbd_predict_light_distance. cbn [bind M_monad]. unfold M_bind, lift.
    rewrite bool_decide_false; [done |]. by rewrite list_of_set_length.
  - rewrite bool_decide_true; [done |]. apply list_of_set_length, list_of_set_NoDup.
Qed.

Lemma tbd_predict_light_distance_duplicates_witness :
  ¬ NoDup [1; 2; 1]%Z ∧
  tbd_predict_light_distance demo_ibs demo_metrics 3 [1; 2; 1]%Z None empty_world
  = (Raise AssertionError, empty_world).
Proof.
  assert (¬ NoDup [1; 2; 1]%Z) as Hdup.
  { intros Hnd. apply NoDup_cons in Hnd as [Hnot _]. apply Hnot. set_solver. }
  split; [exact Hdup |].
  exact (proj1 (tbd_predict_light_distance_duplicates demo_ibs demo_metrics 3 [1; 2; 1]%Z
                  None empty_world) Hdup).
Defined.

(** ** Name scores from the rows of a prediction *)

(** X8: [distance_dicts_to_name_score_dicts] keeps one score per label:
    the converted distance of the last row carrying the label; a label
    no row carries has no score. *)
Theorem distance_dicts_last_row_wins (before after : list entry) (row : entry)
    (conversion_func : Q → num) (name : string) :
  (Forall (λ e, label e ≠ label row) after →
   distance_dicts_to_name_score_dicts (before ++ row :: after) conversion_func !! label row
   = Some (conversion_func (distance row))) ∧
  (Forall (λ e, label e ≠ name) before →
   distance_dicts_to_name_score_dicts before conversion_func !! name = None).
Proof.
  unfold distance_dicts_to_name_score_dicts. split.
  - intros Hafter. rewrite foldl_app. cbn [foldl].
    induction after as [| e after IH] using rev_ind.
    + simpl. by rewrite lookup_insert_eq.
    + apply Forall_app in Hafter as [Hafter He]. apply Forall_cons in He as [He _].
      rewrite foldl_app. cbn [foldl]. rewrite lookup_insert_ne by done. by apply IH.
  - intros Hnone. induction before as [| e before IH] using rev_ind;
      [apply lookup_empty |].
    apply Forall_app in Hnone as [Hnone He]. apply Forall_cons in He as [He _].
    rewrite foldl_app. cbn [foldl]. rewrite lookup_insert_ne by done. by apply IH.
Qed.

Lemma distance_dicts_last_row_wins_witness :
  distance_dicts_to_name_score_dicts
    ([Entry "a" 1] ++ Entry "a" (1 # 2) :: [Entry "b" 2]) distance_to_score !! "a"%string
  = Some (distance_to_score (1 # 2)).
Proof.
  refine (proj1 (distance_dicts_last_row_wins [Entry "a" 1] [Entry "b" 2]
                   (Entry "a" (1 # 2)) distance_to_score "a") _).
  repeat constructor. discriminate.
Defined.

(** ** Labels of the database *)

Lemma string_app_inj (prefix a b : string) : prefix +:+ a = prefix +:+ b → a = b.
Proof.
  induction prefix as [| c prefix IH]; simpl; [done |]. intros [= Heq]. by apply IH.
Qed.

(** X9: in the labels [_db_labels_for_tbd] gives, an annotation whose
    name is a string object other than the constant [UNKNOWN] carries
    the text of that name, also when the text is equal to the
    constant's; two annotations whose name is the constant itself carry
    the same label exactly when they have the same semantic uuid. So
    nameless annotations are kept apart when the host answers with the
    constant, and pooled under one label when it answers with equal
    strings that are other objects. *)
Theorem _db_labels_for_tbd_nameless (ibs : IBS) (daid_list : list Z) (i j : nat) (a b : Z) :
  daid_list !! i = Some a → daid_list !! j = Some b →
  let labels := _db_labels_for_tbd ibs daid_list in
  (∀ text, annot_name_text ibs a = Str text → labels !! i = Some text) ∧
  (annot_name_text ibs a = UNKNOWN_object → annot_name_text ibs b = UNKNOWN_object →
   (labels !! i = labels !! j ↔
    get_annot_semantic_uuids ibs a = get_annot_semantic_uuids ibs b)) ∧
  (annot_name_text ibs a = Str (UNKNOWN ibs) → annot_name_text ibs b = Str (UNKNOWN ibs) →
   labels !! i = Some (UNKNOWN ibs) ∧ labels !! j = Some (UNKNOWN ibs)).
Proof.
  intros Ha Hb labels.
  assert (∀ k c, daid_list !! k = Some c →
            labels !! k = Some (if is_not_UNKNOWN (annot_name_text ibs c)
                                then str ibs (annot_name_text ibs c)
                                else UNKNOWN ibs +:+ get_annot_semantic_uuids ibs c)) as Hlab.
  { intros k c Hk. unfold labels, _db_labels_for_tbd.
    rewrite list_lookup_fmap, lookup_zip_with, !list_lookup_fmap, Hk. done. }
  split; [| split].
  - intros text Hnamed. by rewrite (Hlab i a Ha), Hnamed.
  - intros Hna Hnb. rewrite (Hlab i a Ha), (Hlab j b Hb), Hna, Hnb. cbn [is_not_UNKNOWN].
    split; [| by intros ->].
    intros [= Heq]. by apply string_app_inj in Heq.
  - intros Hna Hnb. by rewrite (Hlab i a Ha), (Hlab j b Hb), Hna, Hnb.
Qed.

Lemma _db_labels_for_tbd_nameless_witness :
  _db_labels_for_tbd demo_ibs [1; 4; 5]%Z !! 0 = Some "a"%string ∧
  _db_labels_for_tbd demo_ibs [1; 4; 5]%Z !! 1 ≠ _db_labels_for_tbd demo_ibs [1; 4; 5]%Z !! 2 ∧
  _db_labels_for_tbd copying_ibs [1; 4; 5]%Z !! 1 = Some "____"%string ∧
  _db_labels_for_tbd copying_ibs [1; 4; 5]%Z !! 2 = Some "____"%string.
Proof.
  split; [| split].
  - exact (proj1 (_db_labels_for_tbd_nameless demo_ibs [1; 4; 5]%Z 0 0 1 1 eq_refl eq_refl)
                 "a"%string eq_refl).
  - intros Heq.
    apply (proj1 (proj2 (_db_labels_for_tbd_nameless demo_ibs [1; 4; 5]%Z 1 2 4 5
                           eq_refl eq_refl)) eq_refl eq_refl) in Heq.
    vm_compute in Heq. discriminate Heq.
  - exact (proj2 (proj2 (_db_labels_for_tbd_nameless copying_ibs [1; 4; 5]%Z 1 2 4 5
                           eq_refl eq_refl)) eq_refl eq_refl).
Defined.

Example _db_labels_for_tbd_demo :
  _db_labels_for_tbd demo_ibs [1; 4; 5]%Z = ["a"; "____uuid-4"; "____uuid-5"]%string ∧
  _db_labels_for_tbd copying_ibs [1; 4; 5]%Z = ["a"; "____"; "____"]%string.
Proof. split; vm_compute; reflexivity. Qed.

(** ** Accuracy at k *)

Lemma take_seqZ_le (a m : Z) (k : nat) :
  k ≤ Z.to_nat m → take k (seqZ a m) = seqZ a (Z.of_nat k).
Proof.
  intros Hk. apply list_eq. intros i.
  destruct (decide (i < k)) as [Hlt | Hge].
  - rewrite lookup_take_lt by done. rewrite !lookup_seqZ_lt by lia. done.
  - rewrite lookup_seqZ_ge by lia. apply lookup_ge_None.
    rewrite length_take. lia.
Qed.

Lemma for_list_int_truediv (F : FloatArith) (counts : list nat) (n : nat) :
  0 < n →
  for_list (λ count, int_truediv F count n) counts
  = Ok (map (λ count, int_quotient F count n) counts).
Proof.
  intros Hn. induction counts as [| c counts IH]; [done |].
  cbn [for_list bind result_monad]. rewrite IH.
  unfold int_truediv. destruct n; [lia | done].
Qed.

Lemma Qsum_snoc (l : list Q) (x : Q) : Qsum (l ++ [x]) = (Qsum l + x)%Q.
Proof. unfold Qsum. by rewrite foldl_app. Qed.

Lemma Qsum_percent (counts : list nat) (d : Q) :
  (Qsum (map (λ count, inject_Z (Z.of_nat count) / d) counts)
   == inject_Z (Z.of_nat (sum_list counts)) / d)%Q.
Proof.
  induction counts as [| c counts IH] using rev_ind.
  - change (0 == 0 / d)%Q. unfold Qdiv. ring.
  - rewrite map_app. cbn [map]. rewrite Qsum_snoc, IH, sum_list_with_app. cbn [sum_list_with].
    unfold Datatypes.id. rewrite Nat.add_0_r, Nat2Z.inj_add, inject_Z_plus. unfold Qdiv. ring.
Qed.

Lemma hits_within_succ (k : nat) (ranks : list Z) :
  hits_within (Z.of_nat (S k)) ranks
  = hits_within (Z.of_nat k) ranks + list_count (1 + Z.of_nat k)%Z ranks.
Proof.
  unfold hits_within, list_count. induction ranks as [| r ranks IH]; [done |].
  rewrite !filter_cons.
  destruct (decide (1 ≤ r ≤ Z.of_nat (S k))%Z), (decide (1 ≤ r ≤ Z.of_nat k)%Z),
    (decide (r = (1 + Z.of_nat k)%Z)); simpl; lia.
Qed.

Lemma sum_counts_hits (k : nat) (ranks : list Z) :
  sum_list (map (λ i, list_count i ranks) (seqZ 1 (Z.of_nat k)))
  = hits_within (Z.of_nat k) ranks.
Proof.
  induction k as [| k IH].
  - simpl. unfold hits_within. induction ranks as [| r ranks IH]; [done |].
    rewrite filter_cons. destruct (decide _); [lia | done].
  - rewrite seqZ_S, map_app, sum_list_with_app, IH, hits_within_succ. simpl. lia.
Qed.

(** What [accuracy_at_k] returns on a non-empty list of ranks, in any
    arithmetic. *)
Lemma accuracy_at_k_run (F : FloatArith) (ranks : list Z) (max_rank : Z) :
  ranks ≠ [] →
  accuracy_at_k F ranks max_rank
  = Ok (map (λ k, float_sum F
                    (map (λ i, int_quotient F (list_count i ranks) (length ranks))
                         (seqZ 1 (Z.of_nat k))))
            (seq 1 (Z.to_nat max_rank))).
Proof.
  intros Hne. unfold accuracy_at_k.
  rewrite for_list_int_truediv by (destruct ranks; [done | simpl; lia]).
  cbn [bind result_monad rbind]. f_equal.
  rewrite !length_map, length_seqZ.
  apply map_ext_in. intros k Hk%in_seq.
  rewrite map_map, <- fmap_take, take_seqZ_le by lia. done.
Qed.

Lemma accuracy_at_k_empty (F : FloatArith) (ranks : list Z) (max_rank : Z) :
  ((0 < max_rank)%Z → accuracy_at_k F [] max_rank = Raise ZeroDivisionError) ∧
  ((max_rank ≤ 0)%Z → accuracy_at_k F ranks max_rank = Ok []).
Proof.
  split; intros Hmax; unfold accuracy_at_k.
  - by rewrite seqZ_cons by done.
  - by rewrite seqZ_nil by done.
Qed.

(** X10: [accuracy_at_k] on an empty list of ranks divides by zero as
    soon as there is a cut-off to report ([max_rank >= 1]); with no
    cut-off at all ([max_rank <= 0]) it returns the empty list for any
    ranks. This holds whatever the rounding of the floats. *)
Theorem accuracy_at_k_edges (F : FloatArith) (ranks : list Z) (max_rank : Z) :
  ((0 < max_rank)%Z → accuracy_at_k F [] max_rank = Raise ZeroDivisionError) ∧
  ((max_rank ≤ 0)%Z → accuracy_at_k F ranks max_rank = Ok []).
Proof. apply accuracy_at_k_empty. Qed.

Lemma accuracy_at_k_edges_witness :
  (accuracy_at_k binary64_arith [] 10 = Raise ZeroDivisionError ∧
   accuracy_at_k binary64_arith [1; 2]%Z 0 = Ok []) ∧
  (accuracy_at_k exact_arith [] 10 = Raise ZeroDivisionError ∧
   accuracy_at_k exact_arith [1; 2]%Z 0 = Ok []).
Proof.
  split; split.
  - exact (proj1 (accuracy_at_k_edges binary64_arith [] 10) ltac:(lia)).
  - exact (proj2 (accuracy_at_k_edges binary64_arith [1; 2]%Z 0) ltac:(lia)).
  - exact (proj1 (accuracy_at_k_edges exact_arith [] 10) ltac:(lia)).
  - exact (proj2 (accuracy_at_k_edges exact_arith [1; 2]%Z 0) ltac:(lia)).
Defined.

(** X11: computed in exact rational arithmetic (the rounding of the
    float quotients and of their sums left aside), on a non-empty list
    of ranks [accuracy_at_k] returns [max_rank] numbers, the one at
    cut-off [k] (position [k - 1]) being the share of the ranks that lie
    between 1 and [k]: a rank of -1 (no match found) or beyond the
    cut-off never counts. *)
Theorem accuracy_at_k_value (ranks : list Z) (max_rank : Z) :
  ranks ≠ [] →
  ∃ cumulative : list Q,
    accuracy_at_k exact_arith ranks max_rank = Ok cumulative ∧
    length cumulative = Z.to_nat max_rank ∧
    ∀ i, i < Z.to_nat max_rank →
         ∃ c, cumulative !! i = Some c ∧
              (c == inject_Z (Z.of_nat (hits_within (Z.of_nat (S i)) ranks))
                    / inject_Z (Z.of_nat (length ranks)))%Q.
Proof.
  intros Hne. rewrite accuracy_at_k_run by done. eexists. split; [reflexivity |].
  rewrite length_map, length_seq. split; [done |].
  intros i Hi. eexists. split.
  - rewrite list_lookup_fmap, lookup_seq_lt by done. reflexivity.
  - cbn [float_sum int_quotient exact_arith].
    rewrite <- (map_map (λ i, list_count i ranks)
                        (λ count, inject_Z (Z.of_nat count) / inject_Z (Z.of_nat (length ranks)))%Q).
    rewrite Qsum_percent. by rewrite sum_counts_hits.
Qed.

Lemma accuracy_at_k_value_witness :
  ∃ cumulative : list Q,
    accuracy_at_k exact_arith [1; -1; 3; 1]%Z 3 = Ok cumulative ∧ length cumulative = 3.
Proof.
  destruct (accuracy_at_k_value [1; -1; 3; 1]%Z 3 ltac:(discriminate))
    as (cumulative & Hrun & Hlen & _).
  exists cumulative. split; [exact Hrun | exact Hlen].
Defined.

Example accuracy_at_k_demo :
  accuracy_at_k exact_arith [1; -1; 3; 1]%Z 3
  = Ok [0 + (2 # 1) / (4 # 1); 0 + (2 # 1) / (4 # 1) + (0 # 1) / (4 # 1);
        0 + (2 # 1) / (4 # 1) + (0 # 1) / (4 # 1) + (1 # 1) / (4 # 1)]%Q.
Proof. reflexivity. Qed.

(** X12: on a non-empty list of ranks [accuracy_at_k] does not raise and
    returns [max_rank] floats (none for [max_rank <= 0]); the one at
    cut-off [k] is [sum] of the [k] quotients [ranks.count(i) /
    len(ranks)] for [i] from 1 to [k], whatever the rounding of the
    quotient and of [sum]. *)
Theorem accuracy_at_k_shape (F : FloatArith) (ranks : list Z) (max_rank : Z) :
  ranks ≠ [] →
  ∃ cumulative,
    accuracy_at_k F ranks max_rank = Ok cumulative ∧
    length cumulative = Z.to_nat max_rank ∧
    ∀ k, 1 ≤ k ≤ Z.to_nat max_rank →
         cumulative !! (k - 1)
         = Some (float_sum F
                   (map (λ i, int_quotient F (list_count i ranks) (length ranks))
                        (seqZ 1 (Z.of_nat k)))).
Proof.
  intros Hne. rewrite accuracy_at_k_run by done. eexists. split; [reflexivity |].
  rewrite length_map, length_seq. split; [done |].
  intros k Hk. rewrite list_lookup_fmap, lookup_seq_lt by lia. cbn.
  by replace (S (k - 1)) with k by lia.
Qed.

(** In doubles, with [sum] adding from the left, ten ranks spread over
    the ten cut-offs end on an accuracy below 1, and three tenths summed
    are not the quotient 3 / 10. *)
Lemma accuracy_at_k_shape_witness :
  ∃ cumulative,
    accuracy_at_k binary64_arith [1; 2; 3; 4; 5; 6; 7; 8; 9; 10]%Z 10 = Ok cumulative ∧
    length cumulative = 10 ∧
    ∃ third last,
      cumulative !! 2 = Some third ∧ cumulative !! 9 = Some last ∧
      PrimFloat.eqb third (PrimFloat.div (float_of_nat 3) (float_of_nat 10)) = false ∧
      PrimFloat.ltb last (float_of_nat 1) = true.
Proof.
  destruct (accuracy_at_k_shape binary64_arith [1; 2; 3; 4; 5; 6; 7; 8; 9; 10]%Z 10
              ltac:(discriminate)) as (cumulative & Hrun & Hlen & Hval).
  exists cumulative. split; [exact Hrun |]. split; [exact Hlen |].
  eexists _, _. split; [exact (Hval 3 ltac:(simpl; lia)) |].
  split; [exact (Hval 10 ltac:(simpl; lia)) |].
  split; vm_compute; reflexivity.
Defined.

(** ** Ranks of single queries *)

Lemma list_remove_spec (x : Z) (l : list Z) :
  match list_remove x l with
  | Ok l' => ∃ l1 l2, l = l1 ++ x :: l2 ∧ (x ∉ l1) ∧ l' = l1 ++ l2
  | Raise e => e = ValueError ∧ x ∉ l
  end.
Proof.
  induction l as [| y l IH]; simpl.
  - split; [done | apply not_elem_of_nil].
  - destruct (decide (y = x)) as [-> | Hne].
    + exists [], l. split; [done |]. split; [apply not_elem_of_nil | done].
    + destruct (list_remove x l) as [l' | e]; simpl.
      * destruct IH as (l1 & l2 & -> & Hnot & ->). exists (y :: l1), l2.
        split; [done |]. split; [| done]. rewrite not_elem_of_cons. by split.
      * destruct IH as [-> Hnot]. split; [done |]. rewrite not_elem_of_cons. by split.
Qed.

Lemma list_index_spec `{EqDecision A} (x : A) (l : list A) :
  match list_index x l with
  | Ok i => l !! i = Some x ∧ ∀ j, j < i → l !! j ≠ Some x
  | Raise e => e = ValueError ∧ x ∉ l
  end.
Proof.
  induction l as [| y l IH]; simpl.
  - split; [done | apply not_elem_of_nil].
  - destruct (decide (y = x)) as [-> | Hne].
    + split; [done |]. intros j Hj. lia.
    + destruct (list_index x l) as [i | e]; simpl.
      * destruct IH as [Hi Hbefore]. split; [done |].
        intros [| j] Hj; simpl; [congruence | apply Hbefore; lia].
      * destruct IH as [-> Hnot]. split; [done |]. rewrite not_elem_of_cons. by split.
Qed.

Ltac not_in_list :=
  let H := fresh in
  intros H; repeat (apply elem_of_cons in H as [H | H]; [discriminate H |]);
  by apply elem_of_nil in H.

(** X13: [_tbd_accuracy] needs the query among the database
    annotations: otherwise it raises [ValueError] before anything is
    computed. When the query is there, only its first occurrence is taken
    out of the database the prediction sees. *)
Theorem _tbd_accuracy_query_in_database (ibs : IBS) (metrics : Metrics) (qaid : Z)
    (daid_list : list Z) (w : world) :
  (qaid ∉ daid_list → _tbd_accuracy ibs metrics qaid daid_list w = (Raise ValueError, w)) ∧
  (∀ before after, (qaid ∉ before) → daid_list = before ++ qaid :: after →
     list_remove qaid daid_list = Ok (before ++ after)).
Proof.
  pose proof (list_remove_spec qaid daid_list) as Hspec. split.
  - intros Hnot. unfold _tbd_accuracy. cbn [bind M_monad]. unfold M_bind, lift.
    destruct (list_remove qaid daid_list) as [l' | e].
    + destruct Hspec as (l1 & l2 & -> & _). exfalso. apply Hnot. set_solver.
    + by destruct Hspec as [-> _].
  - intros before after Hnot ->.
    destruct (list_remove qaid (before ++ qaid :: after)) as [l' | e].
    + destruct Hspec as (l1 & l2 & Heq & Hnot1 & ->). f_equal.
      clear -Heq Hnot Hnot1. revert l1 Heq Hnot1.
      induction before as [| b before IH]; intros [| c l1] Heq Hnot1; simpl in *.
      * by injection Heq as <-.
      * injection Heq as <- _. exfalso. apply Hnot1. by left.
      * injection Heq as -> _. exfalso. apply Hnot. by left.
      * injection Heq as <- Heq. f_equal. apply IH; [| done |].
        -- intros Hin. apply Hnot. by right.
        -- intros Hin. apply Hnot1. by right.
    + destruct Hspec as [_ Hnot']. exfalso. apply Hnot'. set_solver.
Qed.

Lemma _tbd_accuracy_query_in_database_witness :
  _tbd_accuracy demo_ibs demo_metrics 7 [1; 2; 3]%Z empty_world = (Raise ValueError, empty_world) ∧
  list_remove 2 [1; 2; 3; 2]%Z = Ok [1; 3; 2]%Z.
Proof.
  split.
  - apply (proj1 (_tbd_accuracy_query_in_database demo_ibs demo_metrics 7 [1; 2; 3]%Z
                    empty_world)). not_in_list.
  - apply (proj2 (_tbd_accuracy_query_in_database demo_ibs demo_metrics 2 [1; 2; 3; 2]%Z
                    empty_world) [1%Z] [3; 2]%Z); [not_in_list | reflexivity].
Defined.

Lemma _tbd_accuracy_rank_cases ibs metrics qaid daid_list (w : world) (rank : Z) :
  (_tbd_accuracy ibs metrics qaid daid_list w).1 = Ok rank → (rank = -1 ∨ 1 ≤ rank)%Z.
Proof.
  unfold _tbd_accuracy. cbn [bind M_monad]. unfold M_bind, lift.
  destruct (list_remove qaid daid_list) as [daids | e]; [| done].
  destruct (tbd_predict_light ibs metrics qaid daids None w) as [[ans | e] w1]; [| done].
  destruct (list_index _ _) as [i | []]; cbn [ret M_monad]; unfold M_ret; cbn [fst];
    intros [= <-]; lia.
Qed.

(** X14: a rank [_tbd_accuracy] returns is either -1, when no answer of
    the prediction carries the query's name, or the 1-based position of
    the first answer that does. *)
Theorem _tbd_accuracy_rank (ibs : IBS) (metrics : Metrics) (qaid : Z) (daid_list : list Z)
    (w : world) (rank : Z) :
  (_tbd_accuracy ibs metrics qaid daid_list w).1 = Ok rank →
  ∃ daids ans,
    list_remove qaid daid_list = Ok daids ∧
    (tbd_predict_light ibs metrics qaid daids None w).1 = Ok ans ∧
    let truth := get_annot_name_texts ibs qaid in
    ((rank = (-1)%Z ∧ truth ∉ map label ans) ∨
     ((1 ≤ rank ≤ Z.of_nat (length ans))%Z ∧
      map label ans !! Z.to_nat (rank - 1) = Some truth ∧
      ∀ j, j < Z.to_nat (rank - 1) → map label ans !! j ≠ Some truth)).
Proof.
  unfold _tbd_accuracy. cbn [bind M_monad]. unfold M_bind, lift.
  destruct (list_remove qaid daid_list) as [daids | e]; [| done].
  destruct (tbd_predict_light ibs metrics qaid daids None w) as [[ans | e] w1] eqn:Hpred;
    [| done].
  pose proof (list_index_spec (get_annot_name_texts ibs qaid) (map label ans)) as Hspec.
  destruct (list_index _ _) as [i | e].
  - cbn [ret M_monad]. unfold M_ret. cbn [fst]. intros [= <-]. exists daids, ans.
    rewrite Hpred. split; [done |]. split; [done |].
    right. destruct Hspec as [Hi Hbefore].
    pose proof (lookup_lt_Some _ _ _ Hi) as Hlt. rewrite length_map in Hlt.
    replace (Z.to_nat (Z.of_nat i + 1 - 1)) with i by lia.
    split; [lia |]. by split.
  - destruct Hspec as [-> Hnot]. cbn [ret M_monad]. unfold M_ret. cbn [fst].
    intros [= <-]. exists daids, ans. rewrite Hpred.
    split; [done |]. split; [done |]. by left.
Qed.

Lemma _tbd_accuracy_rank_witness :
  (_tbd_accuracy demo_ibs demo_metrics 1 [1; 2; 3]%Z empty_world).1 = Ok 1%Z ∧
  ∃ daids ans,
    list_remove 1 [1; 2; 3]%Z = Ok daids ∧
    (tbd_predict_light demo_ibs demo_metrics 1 daids None empty_world).1 = Ok ans.
Proof.
  assert ((_tbd_accuracy demo_ibs demo_metrics 1 [1; 2; 3]%Z empty_world).1 = Ok 1%Z) as Hrun
    by (vm_compute; reflexivity).
  split; [exact Hrun |].
  destruct (_tbd_accuracy_rank demo_ibs demo_metrics 1 [1; 2; 3]%Z empty_world 1 Hrun)
    as (daids & ans & Hrem & Hpred & _).
  exists daids, ans. split; [exact Hrem | exact Hpred].
Defined.

(** ** Counting sightings *)

Lemma list_count_app `{EqDecision A} (x : A) (l k : list A) :
  list_count x (l ++ k) = list_count x l + list_count x k.
Proof. unfold list_count. by rewrite filter_app, length_app. Qed.

Lemma list_count_zero `{EqDecision A} (x : A) (l : list A) :
  list_count x l = 0 ↔ x ∉ l.
Proof.
  split.
  - intros Hz Hin. apply list_count_pos in Hin. lia.
  - intros Hnot. induction l as [| y l IH]; [done |].
    rewrite list_count_cons. apply not_elem_of_cons in Hnot as [Hne Hnot].
    rewrite decide_False by done. by apply IH.
Qed.

Lemma _count_dict_lookup (item_list : list Z) (item : Z) :
  _count_dict item_list !! item
  = if decide (item ∈ item_list) then Some (list_count item item_list) else None.
Proof.
  unfold _count_dict. induction item_list as [| y l IH] using rev_ind; [done |].
  rewrite foldl_app. cbn [foldl]. rewrite list_count_app.
  destruct (decide (y = item)) as [-> | Hne].
  - rewrite decide_True by (apply elem_of_app; right; by left).
    rewrite lookup_insert_eq, IH.
    rewrite list_count_cons, (decide_True (P := item = item)) by done.
    destruct (decide (item ∈ l)) as [Hin | Hnot]; simpl.
    + f_equal. unfold list_count at 3. simpl. lia.
    + apply list_count_zero in Hnot. rewrite Hnot. f_equal.
  - rewrite lookup_insert_ne, IH by done.
    rewrite list_count_cons, (decide_False (P := y = item)) by done.
    change (list_count item []) with 0. rewrite Nat.add_0_r.
    destruct (decide (item ∈ l)) as [Hin | Hnot].
    + by rewrite decide_True by (apply elem_of_app; by left).
    + rewrite decide_False; [done |].
      intros [Hin | Hin%list_elem_of_singleton]%elem_of_app; [done | congruence].
Qed.

(** X15: [_count_dict] has a key for exactly the items of the list, and
    the value of a key is the number of times the item occurs. *)
Theorem _count_dict_counts (item_list : list Z) (item : Z) :
  _count_dict item_list !! item
  = if decide (item ∈ item_list) then Some (list_count item item_list) else None.
Proof. apply _count_dict_lookup. Qed.

Lemma subset_with_resights_kept (name_rowids : Z → Z) (n : Z) (names : list Z)
    (aid_list : list Z) :
  (∀ aid, aid ∈ aid_list → name_rowids aid ∈ names) →
  for_list (λ '(aid, name),
              count <- dict_getitem (_count_dict names) name ;;
              Ok (aid, bool_decide (n ≤ Z.of_nat count)%Z))
           (zip aid_list (map name_rowids aid_list))
  = Ok (map (λ aid, (aid, bool_decide (n ≤ Z.of_nat (list_count (name_rowids aid) names))%Z))
            aid_list).
Proof.
  intros Hin. induction aid_list as [| aid l IH]; [done |].
  cbn [map zip zip_with for_list bind result_monad] in IH |- *.
  unfold dict_getitem at 1. rewrite _count_dict_lookup.
  rewrite decide_True by (apply Hin; by left). cbn [rbind].
  rewrite IH by (intros; apply Hin; by right). done.
Qed.

(** X16: [subset_with_resights] never raises: it returns, in order, the
    annotations whose name is the name of at least [n] annotations of
    the list. *)
Theorem subset_with_resights_spec (get_annot_name_rowids : Z → Z) (aid_list : list Z) (n : Z) :
  subset_with_resights get_annot_name_rowids aid_list n
  = Ok (filter (λ aid, n ≤ Z.of_nat (list_count (get_annot_name_rowids aid)
                                        (map get_annot_name_rowids aid_list)))%Z
               aid_list).
Proof.
  unfold subset_with_resights.
  rewrite subset_with_resights_kept
    by (intros aid Hin; apply list_elem_of_fmap; by exists aid).
  cbn [bind result_monad rbind]. f_equal.
  generalize (map get_annot_name_rowids aid_list). intros names.
  induction aid_list as [| aid l IH]; [done |].
  cbn [map]. rewrite !filter_cons. cbn [snd].
  destruct (decide (n ≤ Z.of_nat (list_count (get_annot_name_rowids aid) names))%Z)
    as [Hle | Hgt].
  - rewrite bool_decide_true, decide_True by done. rewrite fmap_cons. cbn [fst]. by rewrite IH.
  - rewrite bool_decide_false, decide_False by done. apply IH.
Qed.

Example subset_with_resights_demo :
  subset_with_resights (λ aid, aid `mod` 3)%Z [1; 2; 4; 5; 7; 9]%Z 2 = Ok [1; 2; 4; 5; 7]%Z.
Proof. vm_compute. reflexivity. Qed.

(** ** Scores of the k-NN branch *)

Lemma aid_scores_length ibs (d : gmap string num) (daid_list : list Z) (scores : list num) :
  aid_scores_from_name_scores ibs d daid_list = Ok scores →
  length scores = length daid_list.
Proof.
  intros Hrun. pose proof (aid_scores_outcome ibs d daid_list) as Hout.
  rewrite Hrun in Hout. destruct (aid_scores_total ibs d daid_list Hout) as (m & Hm & _).
  rewrite Hrun in Hm. injection Hm as ->.
  rewrite length_map. apply _db_labels_for_tbd_length.
Qed.

Lemma dict_of_pairs_is_Some `{Countable K} {V} (pairs : list (K * V)) (k : K) :
  k ∈ pairs.*1 → is_Some (dict_of_pairs pairs !! k).
Proof.
  unfold dict_of_pairs. induction pairs as [| [k' v] pairs IH] using rev_ind.
  - intros Hin. by apply elem_of_nil in Hin.
  - rewrite fmap_app, foldl_app. cbn [foldl fmap list_fmap fst snd].
    intros Hin. destruct (decide (k' = k)) as [-> | Hne].
    + rewrite lookup_insert_eq. eauto.
    + rewrite lookup_insert_ne by done. apply IH.
      apply elem_of_app in Hin as [Hin | Hin%list_elem_of_singleton]; [done | congruence].
Qed.

Lemma wbia_plugin_tbd_Ok_inv ibs metrics qaid_list daid_list config w ys :
  (wbia_plugin_tbd ibs metrics qaid_list daid_list config w).1 = Ok ys →
  ∃ qaid_score_dict,
    (score_queries ibs metrics config (list_of_set qaid_list) (list_of_set daid_list) w).1
      = Ok qaid_score_dict ∧
    ys = yield_scores qaid_score_dict qaid_list daid_list.
Proof.
  unfold wbia_plugin_tbd. cbn [bind M_monad]. unfold M_bind.
  destruct (score_queries _ _ _ _ _ w) as [[qsd | e] w1]; simpl; [| done].
  intros [= <-]. eauto.
Qed.

Lemma score_queries_knn_covers ibs metrics config (qaids daids : list Z) (w : world)
    (qaid_score_dict : gmap Z (gmap Z num)) :
  use_knn config = true →
  (score_queries ibs metrics config qaids daids w).1 = Ok qaid_score_dict →
  ∀ qaid, qaid ∈ qaids →
    ∃ aid_score_dict, qaid_score_dict !! qaid = Some aid_score_dict ∧
                      ∀ daid, daid ∈ daids → is_Some (aid_score_dict !! daid).
Proof.
  intros Hknn. unfold score_queries. rewrite Hknn.
  set (covered := λ (qsd : gmap Z (gmap Z num)) (qaid : Z),
         ∃ d, qsd !! qaid = Some d ∧ ∀ daid, daid ∈ daids → is_Some (d !! daid)).
  intros Hrun qaid Hin.
  assert (qaid ∈ qaids ∨ covered ∅ qaid) as Hstart by (by left).
  clear Hin. revert Hrun Hstart. generalize (∅ : gmap Z (gmap Z num)). revert w.
  induction qaids as [| q qaids IH]; intros w acc Hrun Hstart.
  - cbn in Hrun. injection Hrun as <-. destruct Hstart as [Hin | Hcov]; [| done].
    by apply elem_of_nil in Hin.
  - cbn [for_fold bind M_monad] in Hrun. unfold M_bind at 1 in Hrun.
    destruct (M_bind (tbd_predict_light ibs metrics q daids (config_path config)) _ w)
      as [[acc' | e] w1] eqn:Hbody; [| done].
    apply (IH w1 acc' Hrun).
    assert (covered acc' q ∧ ∀ q', q' ≠ q → acc' !! q' = acc !! q') as [Hq Hother].
    { unfold M_bind in Hbody.
      destruct (tbd_predict_light ibs metrics q daids (config_path config) w)
        as [[dists | e] w2]; [| done].
      unfold lift in Hbody.
      destruct (aid_scores_from_name_scores ibs _ daids) as [scores | e] eqn:Hscores;
        [| done].
      cbn in Hbody. injection Hbody as <- <-.
      apply aid_scores_length in Hscores. split.
      - eexists. split; [apply lookup_insert_eq |]. intros daid Hd.
        apply dict_of_pairs_is_Some. rewrite fst_zip by lia. done.
      - intros q' Hne. by rewrite lookup_insert_ne. }
    destruct (decide (qaid = q)) as [-> | Hne]; [by right |].
    destruct Hstart as [Hin | (d & Hd & Hgood)].
    + left. apply elem_of_cons in Hin as [-> | Hin]; done.
    + right. exists d. split; [| done]. by rewrite Hother.
Qed.

(** X17: with [use_knn] on, every score the pairwise scoring operation
    emits is a number, never [None]: each query of the pair list has a
    dict of scores with an entry for each database annotation. *)
Theorem wbia_plugin_tbd_knn_scores_present (ibs : IBS) (metrics : Metrics)
    (qaid_list daid_list : list Z) (config : TbdConfig) (w : world)
    (ys : list (option num)) :
  use_knn config = true →
  (wbia_plugin_tbd ibs metrics qaid_list daid_list config w).1 = Ok ys →
  Forall is_Some ys.
Proof.
  intros Hknn (qsd & Hqsd & ->)%wbia_plugin_tbd_Ok_inv.
  apply Forall_lookup. intros i y Hy. unfold yield_scores in Hy.
  rewrite list_lookup_fmap in Hy.
  destruct (zip qaid_list daid_list !! i) as [[qaid daid] |] eqn:Hpair; [| done].
  apply zip_fst_lookup in Hpair as [Hq Hd]. simpl in Hy. injection Hy as <-.
  destruct (decide (qaid = daid)); [by eexists |].
  destruct (score_queries_knn_covers _ _ _ _ _ _ _ Hknn Hqsd qaid) as (d & Hd' & Hgood).
  { apply list_of_set_elem_of. by eapply list_elem_of_lookup_2. }
  rewrite Hd'. simpl. apply Hgood, list_of_set_elem_of. by eapply list_elem_of_lookup_2.
Qed.

Lemma wbia_plugin_tbd_knn_scores_present_witness :
  ∃ ys,
    (wbia_plugin_tbd demo_ibs demo_metrics [1; 1; 2; 3]%Z [1; 2; 2; 1]%Z
       {| config_path := None; use_knn := true |} empty_world).1 = Ok ys ∧
    Forall is_Some ys.
Proof.
  eexists. split; [vm_compute; reflexivity |].
  apply (wbia_plugin_tbd_knn_scores_present demo_ibs demo_metrics [1; 1; 2; 3]%Z
           [1; 2; 2; 1]%Z {| config_path := None; use_knn := true |} empty_world);
    [reflexivity | vm_compute; reflexivity].
Defined.

(** Without [use_knn] a short row of distances leaves database
    annotations without a score, and the operation emits [None]. *)
Example wbia_plugin_tbd_distance_none :
  (wbia_plugin_tbd demo_ibs
     {| pred_light := pred_light demo_metrics;
        compute_distance_matrix := λ _ _, Ok [[]] |}
     [1]%Z [2]%Z {| config_path := None; use_knn := false |} empty_world).1
  = Ok [None].
Proof. vm_compute. reflexivity. Qed.

(** * Further properties of the model *)

Lemma MiewIdNet_init_fields timm (params : ModelParams) (net : MiewIdNet) :
  MiewIdNet_init timm params = Ok net →
  ∃ features,
    timm (model_name params) (pretrained params) = Ok features ∧
    backbone net = features ∧
    use_fc net = mp_use_fc params ∧
    bn net = (if mp_use_fc params then fc_dim params else features) ∧
    dropout net = (if mp_use_fc params then Some (mp_dropout params) else None) ∧
    fc net = (if mp_use_fc params then Some (features, n_classes params) else None) ∧
    loss_module net = mp_loss_module params ∧
    final net = (if decide (mp_loss_module params = "arcface"%string)
                 then ElasticArcFace (bn net) (n_classes params)
                 else Linear (bn net) (n_classes params)) ∧
    training net = true.
Proof.
  unfold MiewIdNet_init. cbn [bind result_monad]. unfold rbind.
  destruct (timm _ _) as [features | e]; [| done].
  destruct (mp_use_fc params).
  - pose proof (nn_Dropout_outcome (mp_dropout params)) as Hdrop.
    destruct (nn_Dropout _) as [q |]; [| done]. destruct Hdrop as [-> _].
    intros [= <-]; exists features; by repeat split.
  - intros [= <-]; exists features; by repeat split.
Qed.

Lemma extract_feat_built timm (params : ModelParams) (net : MiewIdNet) (features : nat)
    (x : tensor) (calls : list submodule) (mode : bool) :
  MiewIdNet_init timm params = Ok net →
  timm (model_name params) (pretrained params) = Ok features →
  (extract_feat (set_training net mode) x calls).1
  = if (mode && bool_decide (batch x = 1%positive))%bool then Raise ValueError
    else if decide (mp_use_fc params = true ∧ fc_dim params ≠ features)
         then Raise RuntimeError
         else Ok (BatchNorm1dOut features (GeMPooled (BackboneOut features x))).
Proof.
  intros (features' & Htimm & Hb & Hfc & Hbn & Hdrop & Hlin & _)%MiewIdNet_init_fields Htimm'.
  rewrite Htimm in Htimm'. injection Htimm' as ->.
  unfold extract_feat. cbn [bind T_monad]. unfold T_bind, call. cbn [fst snd].
  cbn [set_training training bn backbone use_fc dropout fc].
  rewrite Hb, Hbn, Hfc, Hdrop, Hlin. unfold apply_bn at 1. cbn [width batch].
  destruct (mode && bool_decide (batch x = 1%positive))%bool eqn:Hone; [done |].
  destruct (mp_use_fc params); cbn.
  - destruct (decide (features = fc_dim params)) as [Heq | Hne].
    + rewrite decide_False by (intros [_ H]; by apply H).
      cbn. unfold apply_bn, apply_linear. cbn [width batch fst].
      rewrite Hone, decide_True by done. cbn. rewrite decide_True by done. by rewrite Heq.
    + rewrite decide_True; [done |]. split; [done | congruence].
  - rewrite decide_True by done. by rewrite decide_False by (by intros [? _]).
Qed.

Lemma set_training_same (net : MiewIdNet) : set_training net (training net) = net.
Proof. by destruct net. Qed.

(** X18: on a model as [MiewIdNet.__init__] builds it (in training
    mode), [extract_feat] raises [ValueError] on a one-image batch, the
    batch normalisation refusing it; on a larger batch, and on any batch
    once the model is switched to inference mode, it raises
    [RuntimeError] exactly when [use_fc] is set and [fc_dim] differs from
    the width of the backbone's features (the one normalisation layer is
    then [fc_dim] wide), and otherwise returns the normalised pooled
    features, as wide as the backbone's, with or without [use_fc]. *)
Theorem extract_feat_on_built_model (timm : string → bool → result nat)
    (params : ModelParams) (net : MiewIdNet) (features : nat) (x : tensor)
    (calls : list submodule) :
  MiewIdNet_init timm params = Ok net →
  timm (model_name params) (pretrained params) = Ok features →
  let outcome :=
    if decide (mp_use_fc params = true ∧ fc_dim params ≠ features)
    then Raise RuntimeError
    else Ok (BatchNorm1dOut features (GeMPooled (BackboneOut features x))) in
  (extract_feat net x calls).1
  = (if bool_decide (batch x = 1%positive) then Raise ValueError else outcome) ∧
  (extract_feat (set_training net false) x calls).1 = outcome.
Proof.
  intros Hinit Htimm outcome. split.
  - rewrite <- (set_training_same net) at 1.
    rewrite (extract_feat_built timm params net features x calls _ Hinit Htimm).
    apply MiewIdNet_init_fields in Hinit as (? & _ & _ & _ & _ & _ & _ & _ & _ & ->).
    done.
  - by rewrite (extract_feat_built timm params net features x calls _ Hinit Htimm).
Qed.

Lemma extract_feat_on_built_model_witness :
  ((extract_feat (demo_net 512) (Images 1) []).1 = Raise ValueError ∧
   (extract_feat (set_training (demo_net 512) false) (Images 1) []).1 = Raise RuntimeError) ∧
  ((extract_feat (demo_net 1280) (Images 2) []).1
   = Ok (BatchNorm1dOut 1280 (GeMPooled (BackboneOut 1280 (Images 2)))) ∧
   (extract_feat (set_training (demo_net 1280) false) (Images 2) []).1
   = Ok (BatchNorm1dOut 1280 (GeMPooled (BackboneOut 1280 (Images 2))))).
Proof.
  split.
  - exact (extract_feat_on_built_model demo_timm (demo_params true 512) (demo_net 512) 1280
             (Images 1) [] eq_refl eq_refl).
  - exact (extract_feat_on_built_model demo_timm (demo_params true 1280) (demo_net 1280) 1280
             (Images 2) [] eq_refl eq_refl).
Defined.

(** X19: on a model built (in training mode) with a loss module other
    than "arcface", whose head is a plain linear layer, a forward pass
    with labels raises what the feature extraction raises ([ValueError]
    on a one-image batch, [RuntimeError] when [use_fc] is set and
    [fc_dim] differs from the width of the backbone's features);
    otherwise it raises [TypeError] when the loss module is "cosface" or
    "adacos", the labels being handed to the linear layer, which takes
    none, and for any other name it returns the linear layer's logits,
    one column per class. *)
Theorem forward_training_logits (timm : string → bool → result nat) (params : ModelParams)
    (net : MiewIdNet) (features : nat) (x : tensor) (labels : list Z)
    (calls : list submodule) :
  MiewIdNet_init timm params = Ok net →
  timm (model_name params) (pretrained params) = Ok features →
  mp_loss_module params ≠ "arcface"%string →
  let feature := BatchNorm1dOut features (GeMPooled (BackboneOut features x)) in
  (forward net x (Some labels) calls).1
  = if bool_decide (batch x = 1%positive) then Raise ValueError
    else if decide (mp_use_fc params = true ∧ fc_dim params ≠ features)
         then Raise RuntimeError
         else if decide (mp_loss_module params ∈ ["cosface"; "adacos"]%string)
              then Raise TypeError
              else Ok (LinearOut features (n_classes params) feature).
Proof.
  intros Hinit Htimm Hloss' feature.
  pose proof (extract_feat_built timm params net features x calls true Hinit Htimm) as Hfeat.
  apply MiewIdNet_init_fields in Hinit
    as (features' & Htimm' & Hb & Hfc & Hbn & _ & _ & Hloss & Hfinal & Htrain).
  rewrite Htimm in Htimm'. injection Htimm' as <-.
  rewrite <- Htrain, set_training_same in Hfeat. rewrite Htrain in Hfeat. cbn [andb] in Hfeat.
  unfold forward. cbn [bind T_monad]. unfold T_bind at 1.
  destruct (extract_feat net x calls) as [[f | e] calls']; cbn [fst] in Hfeat |- *.
  - destruct (bool_decide (batch x = 1%positive)); [done |].
    destruct (decide (mp_use_fc params = true ∧ fc_dim params ≠ features)) as [Hbad | Hok];
      [done |].
    injection Hfeat as ->.
    assert (bn net = features) as Hbn'.
    { rewrite Hbn. destruct (mp_use_fc params) eqn:Hu; [| done].
      destruct (decide (fc_dim params = features)); [done |]. exfalso. by apply Hok. }
    rewrite Htrain. cbn [negb]. unfold T_bind, call. cbn [fst].
    rewrite Hloss, Hfinal, Hbn'. rewrite decide_False by done.
    destruct (decide (mp_loss_module params ∈ ["cosface"; "adacos"]%string)) as [Hin | Hout].
    + rewrite bool_decide_true by (by right). done.
    + rewrite bool_decide_false.
      * cbn. unfold apply_linear. cbn. by rewrite decide_True.
      * intros [Heq | Hin]%elem_of_cons; done.
  - destruct (bool_decide (batch x = 1%positive)); [done |].
    by destruct (decide (mp_use_fc params = true ∧ fc_dim params ≠ features)).
Qed.

Lemma forward_training_logits_witness :
  let params :=
    {| model_name := "efficientnet_b0"; mp_use_fc := false; fc_dim := 512;
       mp_dropout := 0%Q; mp_loss_module := "softmax"; s := 30%Q; margin := (1 # 2)%Q;
       ls_eps := 0%Q; theta_zero := (785 # 1000)%Q; pretrained := true; n_classes := 10 |} in
  ∃ net,
    MiewIdNet_init demo_timm params = Ok net ∧
    (forward net (Images 2) (Some [0; 1]%Z) []).1
    = Ok (LinearOut 1280 10 (BatchNorm1dOut 1280 (GeMPooled (BackboneOut 1280 (Images 2))))).
Proof.
  intros params. eexists. split; [reflexivity |].
  exact (forward_training_logits demo_timm params _ 1280 (Images 2) [0; 1]%Z [] eq_refl eq_refl
           ltac:(discriminate)).
Defined.

(** * Further properties of the training set-up *)

Lemma MiewIdNet_init_Raise timm (params : ModelParams) (e : exn) :
  MiewIdNet_init timm params = Raise e →
  timm (model_name params) (pretrained params) = Raise e ∨
  (∃ features, timm (model_name params) (pretrained params) = Ok features) ∧
  e = ValueError ∧ mp_use_fc params = true ∧ ¬ (0 <= mp_dropout params <= 1)%Q.
Proof.
  unfold MiewIdNet_init. cbn [bind result_monad]. unfold rbind.
  destruct (timm _ _) as [features | e']; [| intros [= ->]; by left].
  destruct (mp_use_fc params); [| done].
  pose proof (nn_Dropout_outcome (mp_dropout params)) as Hdrop.
  destruct (nn_Dropout _) as [q | e']; [done |]. destruct Hdrop as [-> Hout].
  intros [= <-]. right. split; [by eexists | done].
Qed.

(** X20: the model set-up fails only when the constructor of the model
    does: the backbone cannot be built, and the set-up raises the
    backbone's exception, or [use_fc] is set with a dropout probability
    outside [0, 1], and it raises [ValueError]. When it returns, the
    configuration keeps every field but [n_classes], which is the
    observed count, and when the configured count was already the
    observed one no warning is printed. *)
Theorem run_model_setup_outcome (timm : string → bool → result nat) (config : Config)
    (n_train_classes : nat) :
  match run_model_setup timm config n_train_classes with
  | Ok st =>
      config_after st = set_n_classes config n_train_classes ∧
      (n_classes (model_params config) = n_train_classes →
       stdout st = [building_banner (model_params config)])
  | Raise e =>
      timm (model_name (model_params config)) (pretrained (model_params config)) = Raise e ∨
      (∃ features,
         timm (model_name (model_params config)) (pretrained (model_params config))
         = Ok features) ∧
      e = ValueError ∧ mp_use_fc (model_params config) = true ∧
      ¬ (0 <= mp_dropout (model_params config) <= 1)%Q
  end.
Proof.
  unfold run_model_setup.
  destruct (decide (n_classes (model_params config) ≠ n_train_classes)) as [Hne | Heq].
  - destruct (MiewIdNet_init timm (model_params (set_n_classes config n_train_classes)))
      as [net | e] eqn:Hinit; cbn [bind result_monad rbind].
    + split; [done |]. intros Heq. by destruct Hne.
    + by apply MiewIdNet_init_Raise in Hinit.
  - apply dec_stable in Heq.
    assert (config = set_n_classes config n_train_classes) as Hsame.
    { rewrite <- Heq. by destruct config as [? ? ? []]. }
    destruct (MiewIdNet_init timm (model_params config)) as [net | e] eqn:Hinit;
      cbn [bind result_monad rbind].
    + done.
    + by apply MiewIdNet_init_Raise in Hinit.
Qed.

(** * Further properties of GeM pooling *)

Section gem_constant.
Local Open Scope R_scope.

Lemma Rsum_constant (l : list R) (c : R) :
  Forall (λ v, v = c) l → Rsum l = INR (length l) * c.
Proof.
  induction 1 as [| v l -> _ IH]; [simpl; lra |].
  cbn [Rsum foldr length]. fold (Rsum l). rewrite IH, S_INR. lra.
Qed.

Lemma rectangular_concat_length (h w : nat) (x : plane) :
  rectangular h w x → length (concat x) = (h * w)%nat.
Proof.
  intros [<- Hrows]. induction Hrows as [| row x Hrow _ IH]; [done |].
  simpl. rewrite length_app, IH, Hrow. done.
Qed.

(** X21: on a plane whose entries all have the same value [c], at least
    [eps > 0], GeM pooling returns [c], whatever the exponent [p] (not
    0): a constant feature map is a fixed point of the pooling. *)
Theorem GeM_constant_plane (self : GeM) (h w : nat) (x : plane) (c : R) :
  (0 < h)%nat → (0 < w)%nat → rectangular h w x →
  Forall (Forall (λ v, v = c)) x →
  0 < eps self → eps self <= c → p self ≠ 0 →
  GeM_forward self x = Ok [[c]].
Proof.
  intros Hh Hw Hrect Hconst Heps Hc Hp. unfold GeM_forward.
  rewrite (gem_formula h w) by done. do 3 f_equal.
  assert (Forall (λ v, v = c) (concat x)) as Hflat.
  { clear Hrect. induction Hconst as [| row x Hrow _ IH]; [constructor |].
    simpl. by apply Forall_app. }
  assert (Forall (λ v, v = Rpower c (p self))
            (map (λ v, Rpower (Rmax v (eps self)) (p self)) (concat x))) as Hpow.
  { apply Forall_fmap. eapply Forall_impl; [exact Hflat |].
    intros v ->. simpl. by rewrite Rmax_left. }
  rewrite (Rsum_constant _ _ Hpow), length_map, (rectangular_concat_length h w) by done.
  assert (0 < INR (h * w)) as Hn by (apply lt_0_INR; nia).
  replace (INR (h * w) * Rpower c (p self) / INR (h * w)) with (Rpower c (p self))
    by (field; lra).
  rewrite Rpower_mult. replace (p self * (1 / p self)) with 1 by (field; done).
  apply Rpower_1. lra.
Qed.

Lemma GeM_constant_plane_witness :
  GeM_forward GeM_default [[2; 2; 2]; [2; 2; 2]] = Ok [[2]].
Proof.
  apply (GeM_constant_plane GeM_default 2 3 [[2; 2; 2]; [2; 2; 2]] 2).
  - lia.
  - lia.
  - split; [reflexivity | repeat constructor].
  - repeat constructor.
  - simpl. lra.
  - simpl. lra.
  - simpl. lra.
Defined.
End gem_constant.

(** * Ranks of many queries *)

Lemma for_list_M_Ok {A B} (body : A → M B) (l : list A) (w : world) (ys : list B) :
  (for_list body l w).1 = Ok ys →
  Forall2 (λ x y, ∃ w', (body x w').1 = Ok y) l ys.
Proof.
  revert w ys. induction l as [| x l IH]; intros w ys.
  - cbn. intros [= <-]. constructor.
  - cbn [for_list bind M_monad]. unfold M_bind at 1.
    destruct (body x w) as [[y | e] w1] eqn:Hx; [| done].
    unfold M_bind at 1.
    destruct (for_list body l w1) as [[ys' | e] w2] eqn:Hl; [| done].
    cbn. intros [= <-]. constructor.
    + exists w. by rewrite Hx.
    + apply (IH w1). by rewrite Hl.
Qed.

(** X22: when [tbd_mass_accuracy] returns, it returns one rank per
    query, each of them -1 or at least 1; so for a non-empty list of
    queries [accuracy_at_k] on these ranks does not divide by zero and
    returns [max_rank] accuracies, whatever the rounding of the floats. *)
Theorem tbd_mass_accuracy_ranks (ibs : IBS) (metrics : Metrics) (aid_list : list Z)
    (daid_list : option (list Z)) (w : world) (ranks : list Z) (max_rank : Z) :
  (tbd_mass_accuracy ibs metrics aid_list daid_list w).1 = Ok ranks →
  length ranks = length aid_list ∧
  Forall (λ rank, rank = -1 ∨ 1 ≤ rank)%Z ranks ∧
  (aid_list ≠ [] →
   ∀ F : FloatArith,
   ∃ cumulative, accuracy_at_k F ranks max_rank = Ok cumulative ∧
                 length cumulative = Z.to_nat max_rank).
Proof.
  unfold tbd_mass_accuracy. intros Hrun%for_list_M_Ok.
  pose proof (Forall2_length _ _ _ Hrun) as Hlen. split; [done |]. split.
  - apply Forall_lookup. intros i rank Hi.
    destruct (Forall2_lookup_r _ _ _ _ _ Hrun Hi) as (aid & _ & w' & Hrank).
    apply _tbd_accuracy_rank_cases in Hrank. lia.
  - intros Hne F. rewrite accuracy_at_k_run.
    + eexists. split; [reflexivity |]. by rewrite length_map, length_seq.
    + intros ->. destruct aid_list; [done | simpl in Hlen; lia].
Qed.

Lemma tbd_mass_accuracy_ranks_witness :
  ∃ ranks,
    (tbd_mass_accuracy demo_ibs demo_metrics [1; 2; 3]%Z None empty_world).1 = Ok ranks ∧
    length ranks = 3.
Proof.
  eexists. split; [vm_compute; reflexivity |].
  refine (proj1 (tbd_mass_accuracy_ranks demo_ibs demo_metrics [1; 2; 3]%Z None empty_world
                   _ 10 _)).
  vm_compute. reflexivity.
Defined.

(** * Runs on the small host *)

Lemma tbd_embedding_keeps_cache_witness :
  GLOBAL_EMBEDDING_CACHE
    (tbd_embedding demo_ibs [1; 2]%Z None false (World {[2%Z := [9%Q]]} [])).2 !! 2%Z
  = Some [9%Q].
Proof.
  apply (tbd_embedding_keeps_cache demo_ibs [1; 2]%Z None false (World {[2%Z := [9%Q]]} [])).
  vm_compute. reflexivity.
Defined.

Lemma scoring_keeps_cache_witness :
  GLOBAL_EMBEDDING_CACHE
    (wbia_plugin_tbd demo_ibs demo_metrics [1; 3]%Z [2; 2]%Z
       {| config_path := None; use_knn := true |} (World {[2%Z := [9%Q]]} [])).2 !! 2%Z
  = Some [9%Q].
Proof.
  apply (proj1 (scoring_keeps_cache demo_ibs demo_metrics [1; 3]%Z [2; 2]%Z
                  {| config_path := None; use_knn := true |} 1 None None)).
  vm_compute. reflexivity.
Defined.
